(** * pm: the install-verification pipeline of [pkg/install.go]

    A shallow embedding of [Install], [download], [verifyManifestIntegrity],
    [verifyPkgContents] and [getReadCloser], together with the parts of the
    Go standard library they call ([bufio.Scanner], [strings.Split],
    [fmt.Sprintf "%x"], [archive/tar], [os], [net/http]).

    Go strings and byte slices are sequences of 8-bit bytes: they are
    modelled by [string] (a list of [ascii]).  The package map
    [map[string]string] is a [gmap string string].  Effects (file system,
    open handles, and the observable sequence of library calls) are threaded
    through a small state monad. *)

From stdpp Require Import gmap strings list fin_maps.
From Stdlib Require Import Ascii String ZArith Lia.

Local Open Scope string_scope.
Local Open Scope Z_scope.
Local Open Scope list_scope.

(** ** Errors

    [github.com/pkg/errors] builds chains: [errors.New] / [errors.Errorf]
    create a leaf from a format string and its arguments, [errors.Wrap] /
    [errors.Wrapf] put a message in front of a cause.  Errors returned by the
    library ([os], [net/http], [archive/tar], [keyring], [db]) are opaque
    leaves. *)

Inductive arg :=
| ArgS (s : string)
| ArgN (n : Z).

Inductive error :=
| External (what : string)
| Errorf (fmt : string) (args : list arg)
| Wrapf (cause : error) (fmt : string) (args : list arg).

Definition New (msg : string) : error := Errorf msg [].
Definition Wrap (cause : error) (msg : string) : error := Wrapf cause msg [].

(** A Go result [(T, error)]. *)
Inductive result (A : Type) :=
| Ok (a : A)
| Err (e : error).
Arguments Ok {A} a.
Arguments Err {A} e.

(** The root cause of a chain ([errors.Cause]). *)
Fixpoint Cause (e : error) : error :=
  match e with
  | Wrapf c _ _ => Cause c
  | _ => e
  end.

(** The three content-verification conditions the specification names, as
    the error values the code builds for them. *)
Definition UndeclaredFile (name : string) : error :=
  Errorf "extra file %q found in tarfile!" [ArgS name].
Definition ChecksumMismatch (name : string) : error :=
  Errorf "%q checksum was incorrect" [ArgS name].
Definition FormatError (n : Z) : error :=
  Errorf "manifest format error; got %d elements, want 2" [ArgN n].

(** ** Library functions on strings *)

Definition tab : ascii := "009"%char.
Definition lf : ascii := "010"%char.
Definition cr : ascii := "013"%char.

(** [strings.Split(s, sep)] for a one-byte separator: every substring
    between separators, so the result has one element more than there are
    separators ([Split("", sep)] is [[""]]). *)
Fixpoint Split (s : string) (sep : ascii) : list string :=
  match s with
  | EmptyString => [EmptyString]
  | String a s' =>
      if Ascii.eqb a sep then EmptyString :: Split s' sep
      else match Split s' sep with
           | x :: xs => String a x :: xs
           | [] => [String a EmptyString]
           end
  end.

(** [bufio.ScanLines] cuts the input after each newline; input left after
    the last newline is a final line when it is not empty.  These are the
    raw lines, before the trailing carriage return is dropped. *)
Fixpoint raw_lines (s : string) (cur : string) : list string :=
  match s with
  | EmptyString => if decide (cur = EmptyString) then [] else [cur]
  | String a s' =>
      if Ascii.eqb a lf then cur :: raw_lines s' EmptyString
      else raw_lines s' (cur +:+ String a EmptyString)
  end.

(** [dropCR]: one trailing carriage return is removed from a line. *)
Fixpoint dropCR (s : string) : string :=
  match s with
  | EmptyString => EmptyString
  | String a EmptyString => if Ascii.eqb a cr then EmptyString else s
  | String a s' => String a (dropCR s')
  end.

(** [bufio.MaxScanTokenSize]: a [Scanner] with the default buffer gives up
    with [ErrTooLong] on a line that does not fit. *)
Definition MaxScanTokenSize : Z := 64 * 1024.
Definition ErrTooLong : error := External "bufio.Scanner: token too long".

Definition len (s : string) : Z := Z.of_nat (String.length s).

(** A byte stream as a reader sees it: the bytes it delivers, and how it
    ends ([None] is [io.EOF], [Some e] a read error). *)
Record stream := { bytes : string; fail : option error }.

(** What a [bufio.Scanner] over a stream does: the tokens [Scan] yields in
    order, and the value of [Err()] once [Scan] has returned false.  A read
    error still lets the buffered rest be scanned; a line too long stops the
    scan at that line. *)
Fixpoint scan_tokens (raw : list string) (end_err : option error)
  : list string * option error :=
  match raw with
  | [] => ([], end_err)
  | l :: ls =>
      if MaxScanTokenSize <=? len l then ([], Some ErrTooLong)
      else let '(ts, e) := scan_tokens ls end_err in (dropCR l :: ts, e)
  end.

Definition Scanner (r : stream) : list string * option error :=
  scan_tokens (raw_lines (bytes r) EmptyString) (fail r).

(** [fmt.Sprintf("%x", b)]: two lower-case hexadecimal digits per byte. *)
Definition hex_digit (n : N) : ascii :=
  if (n <? 10)%N then ascii_of_N (48 + n) else ascii_of_N (87 + n).

Fixpoint Sprintf_x (b : string) : string :=
  match b with
  | EmptyString => EmptyString
  | String a b' =>
      let n := N_of_ascii a in
      String (hex_digit (n / 16)) (String (hex_digit (n mod 16)) (Sprintf_x b'))
  end.

(** ** The manifest loop of [verifyPkgContents] (lines 116-124)

    [cs[elems[1]] = elems[0]] for every scanned line; a line that does not
    split into two elements ends the function with a format error. *)
Fixpoint parse_lines (lines : list string) (cs : gmap string string)
  : result (gmap string string) :=
  match lines with
  | [] => Ok cs
  | l :: ls =>
      match Split l tab with
      | [e0; e1] => parse_lines ls (<[e1 := e0]> cs)
      | elems => Err (FormatError (Z.of_nat (List.length elems)))
      end
  end.

(** ** Data model *)

(** [pm.Meta]: the two observations [install.go] makes of a resolved
    package, its source URL and its package identifier. *)
Record Meta := { URL : string; Pkg : string }.

(** One entry of a tar archive as [tar.Reader] presents it: the header's
    name, whether [hdr.FileInfo().IsDir()] holds, and the entry's bytes as a
    reader positioned on it delivers them. *)
Record entry := { Name : string; IsDir : bool; content : stream }.

(** What [tar.Reader.Next] yields over a file: the entries in physical
    order, then [io.EOF] ([None]) or a traversal error. *)
Record tarfile := { entries : list entry; next_err : option error }.

(** A response of [http.Get]. The status code is carried as the library
    returns it; a status outside 2xx is not an error of [http.Get]. *)
Record Response :=
  { StatusCode : Z; Body : stream; Body_Close_err : option error }.

(** [db.Available]: its one method used here, [Installable]. *)
Definition Available : Type := list string → result (list Meta).

(** The collaborators outside [install.go], as the functions they compute. *)
Record Env := {
  sha256_Sum : string → string;
  filepath_Join : string → string → string;
  tar_NewReader : string → tarfile;
  db_LoadAvailable : string → result Available;
  http_Get : string → result Response;
  keyring_Verify : string → stream → stream → option error;
  os_MkdirAll_err : string → option error;
  os_Create_err : string → option error;
  write_err : string → option error;
  file_Close_err : string → option error
}.

(** A node of the file system: a directory, or a regular file and its
    bytes. *)
Inductive node :=
| Dir
| File (data : string).

(** Resources that have to be released: an [*os.File], a response body. *)
Inductive handle :=
| FileHandle (path : string)
| BodyHandle (url : string).

Global Instance handle_eq_dec : EqDecision handle.
Proof. solve_decision. Defined.

(** The library calls an observer of a run sees, in order. *)
Inductive event :=
| EvLog (m : Meta)
| EvMkdirAll (dir : string)
| EvHttpGet (url : string)
| EvCreate (fn : string)
| EvOpen (tn : string)
| EvClose (h : handle)
| EvKeyringVerify (pn : string) (ok : bool)
| EvSha256 (pn name : string).

Record World := {
  nodes : gmap string node;
  handles : list handle;
  trace : list event
}.

Definition M (A : Type) : Type := World → A * World.

Global Instance M_ret : MRet M := λ A a w, (a, w).
Global Instance M_bind : MBind M :=
  λ A B k c w, let '(a, w') := c w in k a w'.

Definition emit (e : event) : M unit :=
  λ w, (tt, {| nodes := nodes w; handles := handles w;
               trace := trace w ++ [e] |}).

Definition acquire (h : handle) : M unit :=
  λ w, (tt, {| nodes := nodes w; handles := h :: handles w;
               trace := trace w |}).

(** Releasing removes one occurrence of the handle. *)
Fixpoint remove1 (h : handle) (hs : list handle) : list handle :=
  match hs with
  | [] => []
  | h' :: hs' => if decide (h = h') then hs' else h' :: remove1 h hs'
  end.

Definition release (h : handle) : M unit :=
  λ w, (tt, {| nodes := nodes w; handles := remove1 h (handles w);
               trace := trace w |}).

Definition stat (p : string) : M (option node) := λ w, (nodes w !! p, w).

Definition put (p : string) (n : node) : M unit :=
  λ w, (tt, {| nodes := <[p := n]> (nodes w); handles := handles w;
               trace := trace w |}).

Definition cache : string := "var/cache/pm".

(** The world after some library calls that leave the file system alone. *)
Definition advance (w : World) (hs : list handle) (evs : list event) : World :=
  {| nodes := nodes w; handles := hs; trace := trace w ++ evs |}.

(** Observations on a trace: the URLs requested, and the entries hashed. *)
Definition fetched (evs : list event) : list string :=
  omap (λ e, match e with EvHttpGet u => Some u | _ => None end) evs.

Definition hashed (evs : list event) : list (string * string) :=
  omap (λ e, match e with EvSha256 pn n => Some (pn, n) | _ => None end) evs.

(** An open [*os.File]: its path and what reading it gives. *)
Record os_File := { f_path : string; f_node : node }.

(** [tarSlurper]: the file, and the tar reader positioned on one entry. *)
Record tarSlurper := { f : os_File; tr : stream }.

Section Pipeline.
Context (env : Env).

Definition Join3 (a b c : string) : string :=
  filepath_Join env (filepath_Join env a b) c.

(** [os.Open]: fails when nothing is at the path. *)
Definition os_Open (tn : string) : M (result os_File) :=
  _ ← emit (EvOpen tn);
  n ← stat tn;
  match n with
  | None => mret (Err (External "open: no such file or directory"))
  | Some nd =>
      _ ← acquire (FileHandle tn);
      mret (Ok {| f_path := tn; f_node := nd |})
  end.

(** [Close] of an [os.File]. *)
Definition os_File_Close (pf : os_File) : M (option error) :=
  _ ← emit (EvClose (FileHandle (f_path pf)));
  _ ← release (FileHandle (f_path pf));
  mret (file_Close_err env (f_path pf)).

(** [tar.NewReader(pf)]: reading a directory fails at the first [Next]. *)
Definition tar_view (pf : os_File) : tarfile :=
  match f_node pf with
  | File data => tar_NewReader env data
  | Dir => {| entries := [];
              next_err := Some (External "read: is a directory") |}
  end.

Definition tarSlurper_Close (ts : tarSlurper) : M (option error) :=
  os_File_Close (f ts).

(** [Read] of a [tarSlurper] reads from its tar reader: what a consumer of
    the reader gets is the stream of the entry it is positioned on. *)
Definition tarSlurper_Read (ts : tarSlurper) : stream := tr ts.

(** The loop of [getReadCloser] (lines 187-199): the tar reader positioned
    on the first entry named [fn], which [getReadCloser] pairs with the file
    in a [tarSlurper]. *)
Fixpoint getReadCloser_loop (fn : string) (es : list entry)
    (last : option error) : result stream :=
  match es with
  | [] =>
      match last with
      | None => Err (Errorf "%q not found" [ArgS fn])
      | Some err => Err (Wrap err "tar traversal")
      end
  | hdr :: es' =>
      if decide (Name hdr = fn) then Ok (content hdr)
      else getReadCloser_loop fn es' last
  end.

Definition getReadCloser (tn fn : string) : M (result tarSlurper) :=
  r ← os_Open tn;
  match r with
  | Err err => mret (Err (Wrap err "opening pkg file"))
  | Ok pf =>
      let t := tar_view pf in
      match getReadCloser_loop fn (entries t) (next_err t) with
      | Ok rd => mret (Ok {| f := pf; tr := rd |})
      | Err err => mret (Err err)
      end
  end.

Definition verifyManifestIntegrity (root : string) (m : Meta)
  : M (option error) :=
  let pn := Join3 root cache (Pkg m) in
  r ← getReadCloser pn "manifest.sha256";
  match r with
  | Err err => mret (Some (Wrap err "getting manifest reader"))
  | Ok man =>
      r ← getReadCloser pn "manifest.sha256.asc";
      match r with
      | Err err => mret (Some (Wrap err "getting manifest reader"))
      | Ok sig =>
          let v := keyring_Verify env root (tarSlurper_Read man)
                     (tarSlurper_Read sig) in
          _ ← emit (EvKeyringVerify pn (bool_decide (v = None)));
          match v with
          | Some err => mret (Some (Wrap err "verifying manifest"))
          | None =>
              c ← tarSlurper_Close man;
              match c with
              | Some err => mret (Some (Wrap err "closing manifest reader"))
              | None =>
                  c ← tarSlurper_Close sig;
                  match c with
                  | Some err =>
                      mret (Some (Wrap err "closing manifest signature reader"))
                  | None => mret None
                  end
              end
          end
      end
  end.

(** The traversal loop of [verifyPkgContents] (lines 137-164). *)
Fixpoint verifyPkgContents_loop (pn : string) (cs : gmap string string)
    (es : list entry) (last : option error) : M (option error) :=
  match es with
  | [] =>
      match last with
      | None => mret None
      | Some err => mret (Some (Wrap err "tar traversal"))
      end
  | hdr :: es' =>
      if decide (Name hdr = "manifest.sha256"
                 ∨ Name hdr = "manifest.sha256.asc")
      then verifyPkgContents_loop pn cs es' last
      else if IsDir hdr then verifyPkgContents_loop pn cs es' last
      else
        match cs !! Name hdr with
        | None => mret (Some (UndeclaredFile (Name hdr)))
        | Some sha =>
            _ ← emit (EvSha256 pn (Name hdr));
            match fail (content hdr) with
            | Some err =>
                mret (Some (Wrapf err "calculating checksum after %v bytes"
                              [ArgN (len (bytes (content hdr)))]))
            | None =>
                if decide (sha ≠ Sprintf_x (sha256_Sum env (bytes (content hdr))))
                then mret (Some (ChecksumMismatch (Name hdr)))
                else verifyPkgContents_loop pn cs es' last
            end
        end
  end.

Definition verifyPkgContents (root : string) (m : Meta) : M (option error) :=
  let pn := Join3 root cache (Pkg m) in
  r ← getReadCloser pn "manifest.sha256";
  match r with
  | Err err => mret (Some (Wrap err "getting manifest reader"))
  | Ok man =>
      let s := Scanner (tarSlurper_Read man) in
      match parse_lines (fst s) ∅ with
      | Err err => mret (Some err)
      | Ok cs =>
          c ← tarSlurper_Close man;
          match c with
          | Some err => mret (Some (Wrap err "closing manifest reader"))
          | None =>
              match snd s with
              | Some err => mret (Some (Wrap err "scanning manifest"))
              | None =>
                  r ← os_Open pn;
                  match r with
                  | Err err => mret (Some (Wrap err "opening pkg file"))
                  | Ok pf =>
                      let t := tar_view pf in
                      verifyPkgContents_loop pn cs (entries t) (next_err t)
                  end
              end
          end
      end
  end.

(** [os.Create]: truncates or creates the file. *)
Definition os_Create (fn : string) : M (result os_File) :=
  _ ← emit (EvCreate fn);
  n ← stat fn;
  match n with
  | Some Dir => mret (Err (External "open: is a directory"))
  | _ =>
      match os_Create_err env fn with
      | Some err => mret (Err err)
      | None =>
          _ ← put fn (File EmptyString);
          _ ← acquire (FileHandle fn);
          mret (Ok {| f_path := fn; f_node := File EmptyString |})
      end
  end.

(** [io.Copy(f, body)]: the bytes the body delivers go to the file; the
    result is the number of bytes written and the first error met, a failed
    write or the body's read error. A failed write leaves the file as
    [os.Create] made it; nothing is written for an empty body. *)
Definition io_Copy (pf : os_File) (body : stream) : M (Z * option error) :=
  if decide (bytes body = EmptyString) then mret (0, fail body)
  else
    match write_err env (f_path pf) with
    | Some err => mret (0, Some err)
    | None =>
        _ ← put (f_path pf) (File (bytes body));
        mret (len (bytes body), fail body)
    end.

Definition Body_Close (url : string) (resp : Response) : M (option error) :=
  _ ← emit (EvClose (BodyHandle url));
  _ ← release (BodyHandle url);
  mret (Body_Close_err resp).

Fixpoint download (cache : string) (ms : list Meta) : M (option error) :=
  match ms with
  | [] => mret None
  | m :: ms' =>
      _ ← emit (EvHttpGet (URL m));
      match http_Get env (URL m) with
      | Err err => mret (Some (Wrap err "http get"))
      | Ok resp =>
          _ ← acquire (BodyHandle (URL m));
          let fn := filepath_Join env cache (Pkg m) in
          r ← os_Create fn;
          match r with
          | Err err => mret (Some (Wrap err "creating"))
          | Ok pf =>
              c ← io_Copy pf (Body resp);
              match c with
              | (n, Some err) =>
                  mret (Some (Wrapf err "copy %q to disk after %d bytes"
                                [ArgS (URL m); ArgN n]))
              | (_, None) =>
                  c ← Body_Close (URL m) resp;
                  match c with
                  | Some err => mret (Some (Wrap err "closing resp body"))
                  | None => download cache ms'
                  end
              end
          end
      end
  end.

(** [os.MkdirAll]. *)
Definition os_MkdirAll (dir : string) : M (option error) :=
  _ ← emit (EvMkdirAll dir);
  match os_MkdirAll_err env dir with
  | Some err => mret (Some err)
  | None => _ ← put dir Dir; mret None
  end.

(** The verification loop of [Install] (lines 50-58). *)
Fixpoint Install_loop (root : string) (ms : list Meta) : M (option error) :=
  match ms with
  | [] => mret None
  | m :: ms' =>
      _ ← emit (EvLog m);
      r ← verifyManifestIntegrity root m;
      match r with
      | Some err => mret (Some (Wrap err "verifying pkg integrity"))
      | None =>
          r ← verifyPkgContents root m;
          match r with
          | Some err => mret (Some (Wrap err "verifying pkg contents"))
          | None => Install_loop root ms'
          end
      end
  end.

Definition Install (root : string) (pkgs : list string) : M (option error) :=
  match db_LoadAvailable env root with
  | Err err => mret (Some (Wrap err "loading available db"))
  | Ok av =>
      match av pkgs with
      | Err err => mret (Some (Wrap err "checking ability to install"))
      | Ok ms =>
          let cacheDir := filepath_Join env root cache in
          ex ← stat cacheDir;
          r ← match ex with
              | None => os_MkdirAll cacheDir
              | Some _ => mret None
              end;
          match r with
          | Some err =>
              mret (Some (Wrap err "creating non-existent cache dir"))
          | None =>
              nd ← stat cacheDir;
              match nd with
              | Some Dir =>
                  r ← download cacheDir ms;
                  match r with
                  | Some err => mret (Some (Wrap err "downloading"))
                  | None =>
                      r ← Install_loop root ms;
                      match r with
                      | Some err => mret (Some err)
                      | None => mret (Some (New "NYI"))
                      end
                  end
              | _ => mret (Some (Errorf "%q is not a directory!"
                                   [ArgS cacheDir]))
              end
          end
      end
  end.

End Pipeline.

(** ** Vocabulary of the specification *)

(** The lines of a transcript cut at every newline, without the last one
    when it is blank: the remainder after a final newline is no line. *)
Fixpoint drop_blank_tail (l : list string) : list string :=
  match l with
  | [] => []
  | [x] => if decide (x = EmptyString) then [] else [x]
  | x :: l' => x :: drop_blank_tail l'
  end.

(** A manifest line of exactly two tab-separated fields. *)
Definition two_fields (l : string) : Prop := List.length (Split l tab) = 2%nat.

Global Instance two_fields_dec l : Decision (two_fields l).
Proof. unfold two_fields. apply _. Defined.

(** The two reserved entries the traversal skips by name. *)
Definition control (hdr : entry) : Prop :=
  Name hdr = "manifest.sha256" ∨ Name hdr = "manifest.sha256.asc".

Global Instance control_dec hdr : Decision (control hdr).
Proof. unfold control. apply _. Defined.

(** A content entry: neither a control entry nor a directory. *)
Definition is_content (hdr : entry) : bool :=
  bool_decide (¬ control hdr) && negb (IsDir hdr).

(** [hdr] is declared with the digest of its bytes, and can be read. *)
Definition matches (env : Env) (cs : gmap string string) (hdr : entry) : Prop :=
  cs !! Name hdr = Some (Sprintf_x (sha256_Sum env (bytes (content hdr))))
  ∧ fail (content hdr) = None.

(** The manifest of archive [t] is readable and parses to [cs]: what lines
    111-130 of [verifyPkgContents] need to get to the traversal. *)
Definition manifest_parses (t : tarfile) (cs : gmap string string) : Prop :=
  ∃ man, getReadCloser_loop "manifest.sha256" (entries t) (next_err t) = Ok man
         ∧ parse_lines (fst (Scanner man)) ∅ = Ok cs
         ∧ snd (Scanner man) = None.

(** The archive of package [m] in the cache of [root] is the regular file
    whose tar view is [t]. *)
Definition cached (env : Env) (root : string) (m : Meta) (w : World)
    (t : tarfile) : Prop :=
  ∃ data, nodes w !! Join3 env root cache (Pkg m) = Some (File data)
          ∧ tar_NewReader env data = t.

(** The manifest is trusted: both control entries are found and the key
    ring accepts the pair. *)
Definition trusted (env : Env) (root : string) (t : tarfile) : Prop :=
  ∃ man sig,
    getReadCloser_loop "manifest.sha256" (entries t) (next_err t) = Ok man
    ∧ getReadCloser_loop "manifest.sha256.asc" (entries t) (next_err t) = Ok sig
    ∧ keyring_Verify env root man sig = None.

(** In a trace, every digest computed over an archive comes after the key
    ring has accepted the manifest of that archive. *)
Definition trust_first (evs : list event) : Prop :=
  ∀ evs1 pn name evs2,
    evs = evs1 ++ EvSha256 pn name :: evs2 → EvKeyringVerify pn true ∈ evs1.

(** The package is a valid triple: its archive is in the cache, readable
    to its end and closable, with a well-formed manifest, a signature the
    key ring accepts, and content entries that all match the manifest. *)
Definition valid (env : Env) (root : string) (m : Meta) (w : World) : Prop :=
  ∃ t cs,
    cached env root m w t
    ∧ trusted env root t
    ∧ manifest_parses t cs
    ∧ Forall (λ h, is_content h = true → matches env cs h) (entries t)
    ∧ next_err t = None
    ∧ file_Close_err env (Join3 env root cache (Pkg m)) = None.

(** The fetch of [m] fails, whatever the state: no connection, no file to
    write to, a failed write, a body that breaks off, or a body that does
    not close. *)
Definition fetch_fails (env : Env) (cacheDir : string) (m : Meta) : Prop :=
  match http_Get env (URL m) with
  | Err _ => True
  | Ok resp =>
      let fn := filepath_Join env cacheDir (Pkg m) in
      os_Create_err env fn ≠ None
      ∨ (bytes (Body resp) ≠ EmptyString ∧ write_err env fn ≠ None)
      ∨ fail (Body resp) ≠ None
      ∨ Body_Close_err resp ≠ None
  end.

(** ** Further vocabulary *)

(** A lower-case hexadecimal digit, and a string made of such digits. *)
Definition lower_hex (c : ascii) : bool :=
  let n := N_of_ascii c in
  ((48 <=? n) && (n <=? 57) || (97 <=? n) && (n <=? 102))%N.

Fixpoint all_lower_hex (s : string) : bool :=
  match s with
  | EmptyString => true
  | String c s' => lower_hex c && all_lower_hex s'
  end.

(** The value of a hexadecimal digit, and the byte two digits spell: the
    inverse of what [Sprintf_x] prints for one byte. *)
Definition hex_value (c : ascii) : N :=
  let n := N_of_ascii c in
  if (n <? 58)%N then (n - 48)%N else (n - 87)%N.

Definition unhex (hi lo : ascii) : ascii :=
  ascii_of_N (16 * hex_value hi + hex_value lo).

(** [strings.Join] for a one-byte separator. *)
Fixpoint Join_sep (sep : ascii) (l : list string) : string :=
  match l with
  | [] => EmptyString
  | [x] => x
  | x :: l' => x +:+ String sep (Join_sep sep l')
  end.

(** Occurrences of a byte in a string. *)
Fixpoint occurrences (c : ascii) (s : string) : nat :=
  match s with
  | EmptyString => 0%nat
  | String a s' =>
      if Ascii.eqb a c then S (occurrences c s') else occurrences c s'
  end.

(** The last byte of a string is a carriage return. *)
Fixpoint ends_with_cr (s : string) : bool :=
  match s with
  | EmptyString => false
  | String a EmptyString => Ascii.eqb a cr
  | String _ s' => ends_with_cr s'
  end.

(** A manifest transcript written out: one line [<digest> TAB <path>] per
    pair, each followed by the end-of-line [eol]. *)
Definition manifest_line (e : string * string) : string :=
  fst e +:+ String tab (snd e).

Fixpoint transcript (eol : string) (es : list (string * string)) : string :=
  match es with
  | [] => EmptyString
  | e :: es' => manifest_line e +:+ eol +:+ transcript eol es'
  end.

(** A field that can stand in a manifest line: free of tabs, newlines and
    carriage returns. *)
Definition plain (s : string) : Prop :=
  occurrences tab s = 0%nat ∧ occurrences lf s = 0%nat
  ∧ occurrences cr s = 0%nat.

(** Events of the verification stages: opening or closing an archive, asking
    the key ring, computing a digest. *)
Definition is_verification (e : event) : bool :=
  match e with
  | EvOpen _ | EvClose (FileHandle _) | EvKeyringVerify _ _ | EvSha256 _ _ => true
  | _ => false
  end.

(** Lines 46-59 of [Install] as a whole: fetch, then verify, then the stub
    of the commit. *)
Definition fetch_and_verify (env : Env) (root : string) (ms : list Meta)
    (w : World) : option error * World :=
  let '(r, w2) := download env (filepath_Join env root cache) ms w in
  match r with
  | Some err => (Some (Wrap err "downloading"), w2)
  | None =>
      let '(r', w3) := Install_loop env root ms w2 in
      (Some (match r' with Some err => err | None => New "NYI" end), w3)
  end.

(** The archive handles of a list of packages, last package first. *)
Definition archive_handles (env : Env) (root : string) (ms : list Meta)
  : list handle :=
  rev ((λ m, FileHandle (Join3 env root cache (Pkg m))) <$> ms).

(** The cache-file handles of a list of packages, last package first. *)
Definition cache_handles (env : Env) (cacheDir : string) (ms : list Meta)
  : list handle :=
  rev ((λ m, FileHandle (filepath_Join env cacheDir (Pkg m))) <$> ms).

(** ** A concrete installation

    Package [foo-1.0] of the specification's scenario, with stand-ins for the
    collaborators: the digest of a file is the file itself, paths are joined
    with a slash, an archive's bytes name its tar view, and the key ring
    accepts the signature [sig(<manifest bytes>)]. *)
Module Scenario.

Definition rd (s : string) : stream := {| bytes := s; fail := None |}.

Definition file (name body : string) : entry :=
  {| Name := name; IsDir := false; content := rd body |}.

Definition tarball (es : list entry) : tarfile :=
  {| entries := es; next_err := None |}.

(** [bin/foo] holds the two bytes "hi", whose stand-in digest prints as
    [6869]. *)
Definition manifest : string := "6869" +:+ String tab "bin/foo" +:+ String lf EmptyString.

Definition signed (man : string) : list entry :=
  [file "manifest.sha256" man;
   file "manifest.sha256.asc" ("sig(" +:+ man +:+ ")")].

Definition bin_dir : entry :=
  {| Name := "bin"; IsDir := true; content := rd EmptyString |}.

(** The valid archive. *)
Definition foo_good : tarfile :=
  tarball (signed manifest ++ [bin_dir; file "bin/foo" "hi"]).

(** [bin/foo] dropped from the archive, manifest and signature untouched. *)
Definition foo_missing : tarfile :=
  tarball (signed manifest ++ [bin_dir]).

(** An unrelated [bin/bar], not in the manifest, in front of [bin/foo]. *)
Definition foo_extra : tarfile :=
  tarball (signed manifest ++ [bin_dir; file "bin/bar" "yo"; file "bin/foo" "hi"]).

(** The bytes of [bin/foo] changed after the manifest was made. *)
Definition foo_tampered : tarfile :=
  tarball (signed manifest ++ [bin_dir; file "bin/foo" "ho"; file "bin/baz" "zz"]).

(** The signature is not one the key ring accepts. *)
Definition foo_badsig : tarfile :=
  tarball [file "manifest.sha256" manifest;
           file "manifest.sha256.asc" "sig(forged)";
           bin_dir; file "bin/foo" "hi"].

(** Two manifest lines for [bin/foo], the first with another digest. *)
Definition manifest_dup : string :=
  "0000" +:+ String tab "bin/foo" +:+ String lf EmptyString +:+ manifest.

Definition foo_dup : tarfile :=
  tarball (signed manifest_dup ++ [bin_dir; file "bin/foo" "hi"]).

(** A manifest with a line of three fields after a good one. *)
Definition manifest_bad : string :=
  manifest +:+ "6869" +:+ String tab "bin" +:+ String tab "foo" +:+ String lf EmptyString.

Definition foo_badman : tarfile :=
  tarball (signed manifest_bad ++ [bin_dir; file "bin/foo" "hi"]).

(** The mapping the manifest of [foo-1.0] parses to. *)
Definition foo_map : gmap string string := {[ "bin/foo" := "6869" ]}.

(** The archives the remote serves, by package identifier. *)
Definition archives : list (string * tarfile) :=
  [("foo-1.0", foo_good); ("foo-missing", foo_missing);
   ("foo-extra", foo_extra); ("foo-tampered", foo_tampered);
   ("foo-badsig", foo_badsig); ("foo-dup", foo_dup);
   ("foo-badman", foo_badman)].

Fixpoint assoc {A} (k : string) (l : list (string * A)) : option A :=
  match l with
  | [] => None
  | (k', a) :: l' => if decide (k = k') then Some a else assoc k l'
  end.

Definition serve (p : string) : Response :=
  match assoc p archives with
  | Some _ => {| StatusCode := 200; Body := rd p; Body_Close_err := None |}
  | None => {| StatusCode := 404; Body := rd "404 page not found";
               Body_Close_err := None |}
  end.

Definition meta (p : string) : Meta := {| URL := p; Pkg := p |}.

Definition env : Env := {|
  sha256_Sum := λ b, b;
  filepath_Join := λ a b, a +:+ "/" +:+ b;
  tar_NewReader := λ data,
    match assoc data archives with
    | Some t => t
    | None => {| entries := [];
                 next_err := Some (External "archive/tar: invalid tar header") |}
    end;
  db_LoadAvailable := λ root, Ok (λ pkgs, Ok (map meta pkgs));
  http_Get := λ url,
    if decide (url = "unreachable")
    then Err (External "dial tcp: connection refused")
    else Ok (serve url);
  keyring_Verify := λ root man sig,
    if decide (bytes sig = "sig(" +:+ bytes man +:+ ")") then None
    else Some (External "openpgp: invalid signature");
  os_MkdirAll_err := λ _, None;
  os_Create_err := λ _, None;
  write_err := λ _, None;
  file_Close_err := λ _, None
|}.

Definition empty_world : World := {| nodes := ∅; handles := []; trace := [] |}.

(** A world with the cache directory of [root] and nothing in it. *)
Definition cache_world : World :=
  {| nodes := {[ "root/var/cache/pm" := Dir ]}; handles := []; trace := [] |}.

(** A world in which the archive [p] is already in the cache of [root]. *)
Definition cached_world (p : string) : World :=
  {| nodes := {[ "root/var/cache/pm/" +:+ p := File p ]};
     handles := []; trace := [] |}.

End Scenario.

(** ** More archives

    The installation of [Scenario] with further archives at the remote. *)
Module More.

(** A directory first, a second and different [manifest.sha256] after the
    signature, and a tape that breaks at its end. *)
Definition foo_dup2 : tarfile :=
  {| entries := Scenario.bin_dir :: Scenario.signed Scenario.manifest
                ++ [Scenario.file "manifest.sha256" "forged";
                    Scenario.file "bin/foo" "hi"];
     next_err := Some (External "unexpected EOF") |}.

(** The digest of [bin/foo] written in upper case in the manifest. *)
Definition manifest_upper : string :=
  "686F" +:+ String tab "bin/foo" +:+ String lf EmptyString.

Definition foo_upper : tarfile :=
  Scenario.tarball (Scenario.signed manifest_upper
                    ++ [Scenario.bin_dir; Scenario.file "bin/foo" "ho"]).

Definition archives : list (string * tarfile) :=
  [("foo-dup2", foo_dup2); ("foo-upper", foo_upper)].

Definition env : Env := {|
  sha256_Sum := sha256_Sum Scenario.env;
  filepath_Join := filepath_Join Scenario.env;
  tar_NewReader := λ data,
    match Scenario.assoc data archives with
    | Some t => t
    | None => tar_NewReader Scenario.env data
    end;
  db_LoadAvailable := db_LoadAvailable Scenario.env;
  http_Get := http_Get Scenario.env;
  keyring_Verify := keyring_Verify Scenario.env;
  os_MkdirAll_err := os_MkdirAll_err Scenario.env;
  os_Create_err := os_Create_err Scenario.env;
  write_err := write_err Scenario.env;
  file_Close_err := file_Close_err Scenario.env
|}.

End More.

(** ** Proof steps for the fetch loop

    A turn of [download] either returns an error or goes on to the next
    package. *)
Ltac stops :=
  left; eexists _, _, _; split; [reflexivity|];
  simpl; rewrite <- ?app_assoc; simpl; repeat split; reflexivity.

Ltac goes_on :=
  right; split;
  [ intuition congruence
  | eexists _, _; split; [reflexivity|];
    simpl; rewrite <- ?app_assoc; simpl; repeat split; reflexivity ].

(** A turn of [download] that ends the run: its events, none of them of the
    verification stages. *)
Ltac fetch_ends :=
  eexists; simpl; rewrite <- ?app_assoc; simpl;
  split; [reflexivity|by repeat constructor].

(** ** Basic facts about the library model *)

Lemma remove1_head (h : handle) (hs : list handle) : remove1 h (h :: hs) = hs.
Proof. simpl. by rewrite decide_True. Qed.

Lemma fetched_app (a b : list event) : fetched (a ++ b) = fetched a ++ fetched b.
Proof. apply omap_app. Qed.

Lemma hashed_app (a b : list event) : hashed (a ++ b) = hashed a ++ hashed b.
Proof. apply omap_app. Qed.

Lemma hashed_elem (l : list event) pn n :
  (pn, n) ∈ hashed l ↔ EvSha256 pn n ∈ l.
Proof.
  unfold hashed. rewrite list_elem_of_omap. split.
  - intros (x & Hx & Hf). destruct x; try discriminate Hf.
    injection Hf as -> ->. done.
  - intros Hin. by exists (EvSha256 pn n).
Qed.

Lemma advance_advance w hs evs hs' evs' :
  advance (advance w hs evs) hs' evs' = advance w hs' (evs ++ evs').
Proof. unfold advance; simpl. by rewrite app_assoc. Qed.

Lemma advance_id w : advance w (handles w) [] = w.
Proof. destruct w; unfold advance; simpl. by rewrite app_nil_r. Qed.

Section Readers.
Context (env : Env).

Lemma os_Open_found tn w nd :
  nodes w !! tn = Some nd →
  os_Open tn w =
    (Ok {| f_path := tn; f_node := nd |},
     advance w (FileHandle tn :: handles w) [EvOpen tn]).
Proof.
  intros Hn. unfold os_Open, mbind, M_bind, emit, stat, acquire.
  simpl. by rewrite Hn.
Qed.

Lemma os_Open_absent tn w :
  nodes w !! tn = None →
  os_Open tn w =
    (Err (External "open: no such file or directory"),
     advance w (handles w) [EvOpen tn]).
Proof.
  intros Hn. unfold os_Open, mbind, M_bind, emit, stat. simpl. by rewrite Hn.
Qed.

(** [getReadCloser] on a path that exists: the file is opened, and stays
    open whatever the search gives. *)
Lemma getReadCloser_open tn fn w nd :
  nodes w !! tn = Some nd →
  let pf := {| f_path := tn; f_node := nd |} in
  getReadCloser env tn fn w =
    (match getReadCloser_loop fn (entries (tar_view env pf))
             (next_err (tar_view env pf)) with
     | Ok rd => Ok {| f := pf; tr := rd |}
     | Err err => Err err
     end,
     advance w (FileHandle tn :: handles w) [EvOpen tn]).
Proof.
  intros Hn pf. unfold getReadCloser, os_Open, mbind, M_bind, emit, stat, acquire.
  simpl. rewrite Hn. simpl.
  by destruct (getReadCloser_loop _ _ _).
Qed.

Lemma getReadCloser_absent tn fn w :
  nodes w !! tn = None →
  getReadCloser env tn fn w =
    (Err (Wrap (External "open: no such file or directory") "opening pkg file"),
     advance w (handles w) [EvOpen tn]).
Proof.
  intros Hn. unfold getReadCloser, os_Open, mbind, M_bind, emit, stat.
  simpl. by rewrite Hn.
Qed.

Lemma tarSlurper_Close_eq ts w :
  tarSlurper_Close env ts w =
    (file_Close_err env (f_path (f ts)),
     advance w (remove1 (FileHandle (f_path (f ts))) (handles w))
       [EvClose (FileHandle (f_path (f ts)))]).
Proof. reflexivity. Qed.

(** The traversal loop only hashes: it touches neither files nor handles,
    and the events it adds are digest computations over the archive. *)
Lemma verifyPkgContents_loop_effect pn cs es last w :
  ∃ names,
    snd (verifyPkgContents_loop env pn cs es last w) =
      advance w (handles w) (EvSha256 pn <$> names).
Proof.
  revert w. induction es as [|hdr es IH]; intros w; simpl.
  - exists []. destruct last; simpl; by rewrite advance_id.
  - case_decide; [done|]. destruct (IsDir hdr); [done|].
    destruct (cs !! Name hdr) as [sha|]; simpl.
    + unfold mbind, M_bind, emit; simpl.
      destruct (fail (content hdr)); simpl; [by exists [Name hdr]|].
      case_decide; simpl; [by exists [Name hdr]|].
      match goal with
      | |- context [verifyPkgContents_loop _ _ _ _ _ ?w'] =>
          destruct (IH w') as (names & Heq)
      end.
      exists (Name hdr :: names). rewrite Heq.
      unfold advance; simpl. by rewrite <- app_assoc.
    + exists []. simpl. by rewrite advance_id.
Qed.

(** Entries that pass are walked over, leaving one digest event each. *)
Lemma verifyPkgContents_loop_app pn cs pre rest last w :
  Forall (λ hdr, is_content hdr = true → matches env cs hdr) pre →
  verifyPkgContents_loop env pn cs (pre ++ rest) last w =
    verifyPkgContents_loop env pn cs rest last
      (advance w (handles w) (EvSha256 pn <$> (Name <$> filter (λ h, is_content h = true) pre))).
Proof.
  intros Hpre. revert w.
  induction Hpre as [|hdr pre Hhdr _ IH]; intros w; simpl.
  - by rewrite advance_id.
  - rewrite filter_cons. destruct (decide (is_content hdr = true)) as [Hc|Hc].
    + pose proof Hc as Hc'. unfold is_content in Hc'.
      apply andb_true_iff in Hc' as [Hctl Hd].
      apply bool_decide_eq_true in Hctl. apply negb_true_iff in Hd.
      rewrite decide_False by exact Hctl. rewrite Hd.
      destruct (Hhdr Hc) as [Hcs Hfail].
      rewrite Hcs. unfold mbind, M_bind, emit; simpl. rewrite Hfail.
      rewrite decide_False by (intros Hne; by apply Hne).
      rewrite IH. f_equal.
      unfold advance; simpl. by rewrite <- app_assoc.
    + case_decide as Hctl; [apply IH|].
      destruct (IsDir hdr) eqn:Hd; [apply IH|].
      exfalso. apply Hc. unfold is_content. rewrite Hd.
      by rewrite bool_decide_eq_true_2.
Qed.

(** How [verifyPkgContents] gets to its traversal, and where it stops
    before it. *)
Lemma verifyPkgContents_eq root m w nd :
  let pn := Join3 env root cache (Pkg m) in
  let pf := {| f_path := pn; f_node := nd |} in
  let t := tar_view env pf in
  nodes w !! pn = Some nd →
  verifyPkgContents env root m w =
    match getReadCloser_loop "manifest.sha256" (entries t) (next_err t) with
    | Err err =>
        (Some (Wrap err "getting manifest reader"),
         advance w (FileHandle pn :: handles w) [EvOpen pn])
    | Ok man =>
        match parse_lines (fst (Scanner man)) ∅ with
        | Err err =>
            (Some err, advance w (FileHandle pn :: handles w) [EvOpen pn])
        | Ok cs =>
            match file_Close_err env pn with
            | Some err =>
                (Some (Wrap err "closing manifest reader"),
                 advance w (handles w) [EvOpen pn; EvClose (FileHandle pn)])
            | None =>
                match snd (Scanner man) with
                | Some err =>
                    (Some (Wrap err "scanning manifest"),
                     advance w (handles w) [EvOpen pn; EvClose (FileHandle pn)])
                | None =>
                    verifyPkgContents_loop env pn cs (entries t) (next_err t)
                      (advance w (FileHandle pn :: handles w)
                         [EvOpen pn; EvClose (FileHandle pn); EvOpen pn])
                end
            end
        end
    end.
Proof.
  intros pn pf t Hn. unfold verifyPkgContents. fold pn.
  unfold mbind at 1. unfold M_bind at 1.
  rewrite (getReadCloser_open pn "manifest.sha256" w nd) by done.
  fold pf t. destruct (getReadCloser_loop _ _ _) as [man|err]; [|done].
  cbn [f tr f_path tarSlurper_Read]. destruct (parse_lines _ _) as [cs|err]; [|done].
  unfold mbind at 1. unfold M_bind at 1. rewrite tarSlurper_Close_eq.
  cbn [f tr f_path tarSlurper_Read]. change (f_path pf) with pn.
  simpl handles. rewrite remove1_head.
  destruct (file_Close_err env pn); [by rewrite advance_advance|].
  destruct (snd (Scanner man)); [by rewrite advance_advance|].
  unfold mbind, M_bind. rewrite (os_Open_found pn _ nd) by done.
  fold pf t. by rewrite !advance_advance.
Qed.

Lemma verifyPkgContents_absent root m w :
  let pn := Join3 env root cache (Pkg m) in
  nodes w !! pn = None →
  verifyPkgContents env root m w =
    (Some (Wrap (Wrap (External "open: no such file or directory")
                   "opening pkg file") "getting manifest reader"),
     advance w (handles w) [EvOpen pn]).
Proof.
  intros pn Hn. unfold verifyPkgContents. fold pn.
  unfold mbind, M_bind. by rewrite getReadCloser_absent.
Qed.

(** [verifyManifestIntegrity], path by path. *)
Lemma verifyManifestIntegrity_eq root m w nd :
  let pn := Join3 env root cache (Pkg m) in
  let pf := {| f_path := pn; f_node := nd |} in
  let t := tar_view env pf in
  let fh := FileHandle pn in
  nodes w !! pn = Some nd →
  verifyManifestIntegrity env root m w =
    match getReadCloser_loop "manifest.sha256" (entries t) (next_err t) with
    | Err err =>
        (Some (Wrap err "getting manifest reader"),
         advance w (fh :: handles w) [EvOpen pn])
    | Ok man =>
        match getReadCloser_loop "manifest.sha256.asc" (entries t) (next_err t) with
        | Err err =>
            (Some (Wrap err "getting manifest reader"),
             advance w (fh :: fh :: handles w) [EvOpen pn; EvOpen pn])
        | Ok sig =>
            match keyring_Verify env root man sig with
            | Some err =>
                (Some (Wrap err "verifying manifest"),
                 advance w (fh :: fh :: handles w)
                   [EvOpen pn; EvOpen pn; EvKeyringVerify pn false])
            | None =>
                match file_Close_err env pn with
                | Some err =>
                    (Some (Wrap err "closing manifest reader"),
                     advance w (fh :: handles w)
                       [EvOpen pn; EvOpen pn; EvKeyringVerify pn true;
                        EvClose fh])
                | None =>
                    (None,
                     advance w (handles w)
                       [EvOpen pn; EvOpen pn; EvKeyringVerify pn true;
                        EvClose fh; EvClose fh])
                end
            end
        end
    end.
Proof.
  intros pn pf t fh Hn. unfold verifyManifestIntegrity. fold pn.
  unfold mbind at 1. unfold M_bind at 1.
  rewrite (getReadCloser_open pn "manifest.sha256" w nd) by done.
  fold pf t. destruct (getReadCloser_loop _ _ _) as [man|err]; [|done].
  unfold mbind at 1. unfold M_bind at 1.
  rewrite (getReadCloser_open pn "manifest.sha256.asc" _ nd) by done.
  fold pf t. destruct (getReadCloser_loop _ _ _) as [sig|err];
    [|by rewrite advance_advance].
  cbn [f tr f_path tarSlurper_Read]. rewrite advance_advance.
  unfold mbind at 1. unfold M_bind at 1. unfold emit.
  destruct (keyring_Verify env root man sig) as [err|] eqn:Hv.
  { rewrite bool_decide_eq_false_2 by done. unfold advance; simpl.
    by rewrite <- app_assoc. }
  rewrite bool_decide_eq_true_2 by done.
  unfold mbind at 1. unfold M_bind at 1. rewrite tarSlurper_Close_eq.
  cbn [f tr f_path tarSlurper_Read]. change (f_path pf) with pn. fold fh.
  simpl handles. rewrite remove1_head.
  destruct (file_Close_err env pn) eqn:Hc.
  { unfold advance; simpl. by rewrite <- !app_assoc. }
  unfold mbind at 1. unfold M_bind at 1. rewrite tarSlurper_Close_eq.
  cbn [f tr f_path tarSlurper_Read]. change (f_path pf) with pn. fold fh. rewrite Hc.
  simpl handles. rewrite remove1_head.
  unfold advance; simpl. by rewrite <- !app_assoc.
Qed.

Lemma verifyManifestIntegrity_absent root m w :
  let pn := Join3 env root cache (Pkg m) in
  nodes w !! pn = None →
  verifyManifestIntegrity env root m w =
    (Some (Wrap (Wrap (External "open: no such file or directory")
                   "opening pkg file") "getting manifest reader"),
     advance w (handles w) [EvOpen pn]).
Proof.
  intros pn Hn. unfold verifyManifestIntegrity. fold pn.
  unfold mbind, M_bind. by rewrite getReadCloser_absent.
Qed.

End Readers.

Section Verification.
Context (env : Env).

Lemma advance_nodes w hs evs : nodes (advance w hs evs) = nodes w.
Proof. reflexivity. Qed.

(** Verification reads the file system and never writes it. *)
Lemma verifyManifestIntegrity_nodes root m w :
  nodes (snd (verifyManifestIntegrity env root m w)) = nodes w.
Proof.
  destruct (nodes w !! Join3 env root cache (Pkg m)) as [nd|] eqn:Hn.
  - rewrite (verifyManifestIntegrity_eq env root m w nd Hn).
    repeat case_match; reflexivity.
  - by rewrite (verifyManifestIntegrity_absent env root m w Hn).
Qed.

Lemma verifyPkgContents_nodes root m w :
  nodes (snd (verifyPkgContents env root m w)) = nodes w.
Proof.
  destruct (nodes w !! Join3 env root cache (Pkg m)) as [nd|] eqn:Hn.
  - rewrite (verifyPkgContents_eq env root m w nd Hn).
    repeat case_match; try reflexivity.
    match goal with
    | |- context [verifyPkgContents_loop env ?pn ?cs ?es ?l ?w'] =>
        destruct (verifyPkgContents_loop_effect env pn cs es l w') as [names ->]
    end.
    reflexivity.
  - by rewrite (verifyPkgContents_absent env root m w Hn).
Qed.

Lemma Install_loop_nodes root ms w :
  nodes (snd (Install_loop env root ms w)) = nodes w.
Proof.
  revert w. induction ms as [|m ms IH]; intros w; [done|].
  simpl. unfold mbind, M_bind, emit. simpl.
  match goal with
  | |- context [verifyManifestIntegrity env root m ?w'] =>
      pose proof (verifyManifestIntegrity_nodes root m w') as Hvmi;
      destruct (verifyManifestIntegrity env root m w') as [[err|] w1]
  end; simpl in *; [done|].
  pose proof (verifyPkgContents_nodes root m w1) as Hvpc.
  destruct (verifyPkgContents env root m w1) as [[err|] w2]; simpl in *.
  - congruence.
  - rewrite IH. congruence.
Qed.

(** A content entry that does not match stops the traversal with an error,
    at that entry or before it. *)
Lemma verifyPkgContents_loop_rejects pn cs es last w hdr :
  hdr ∈ es → is_content hdr = true → ¬ matches env cs hdr →
  is_Some (fst (verifyPkgContents_loop env pn cs es last w)).
Proof.
  intros Hin Hc Hbad. revert w.
  induction es as [|h es IH]; intros w; [by apply elem_of_nil in Hin|].
  apply elem_of_cons in Hin as [<-|Hin].
  - simpl. unfold is_content in Hc. apply andb_true_iff in Hc as [Hctl Hd].
    apply bool_decide_eq_true in Hctl. apply negb_true_iff in Hd.
    rewrite decide_False by exact Hctl. rewrite Hd.
    destruct (cs !! Name hdr) as [sha|] eqn:Hcs; [|by eexists].
    unfold mbind, M_bind, emit; simpl.
    destruct (fail (content hdr)) eqn:Hf; [by eexists|].
    case_decide as Hne; [by eexists|].
    exfalso. apply Hbad. split; [|done].
    rewrite Hcs. by f_equal.
  - simpl. case_decide; [by apply IH|].
    destruct (IsDir h); [by apply IH|].
    destruct (cs !! Name h); [|by eexists].
    unfold mbind, M_bind, emit; simpl.
    destruct (fail (content h)); [by eexists|].
    case_decide; [by eexists|]. by apply IH.
Qed.

(** A package that content verification rejects, whatever handles are open
    and whatever happened before, keeps the loop of [Install] from running
    to its end. *)
Lemma Install_loop_rejects root ms m w :
  m ∈ ms →
  (∀ w', nodes w' = nodes w →
         is_Some (fst (verifyPkgContents env root m w'))) →
  is_Some (fst (Install_loop env root ms w)).
Proof.
  intros Hin Hrej. revert w Hrej.
  induction ms as [|m' ms IH]; intros w Hrej; [by apply elem_of_nil in Hin|].
  simpl. unfold mbind, M_bind, emit. simpl.
  match goal with
  | |- context [verifyManifestIntegrity env root m' ?w'] =>
      pose proof (verifyManifestIntegrity_nodes root m' w') as Hvmi;
      destruct (verifyManifestIntegrity env root m' w') as [[err|] w1]
  end; simpl in *; [by eexists|].
  pose proof (verifyPkgContents_nodes root m' w1) as Hvpc.
  destruct (verifyPkgContents env root m' w1) as [[err|] w2] eqn:Hr;
    simpl in *; [by eexists|].
  apply elem_of_cons in Hin as [->|Hin].
  - destruct (Hrej w1 Hvmi) as [e He]. rewrite Hr in He. done.
  - apply IH; [done|]. intros w' Hw'. apply Hrej. congruence.
Qed.

End Verification.

Section Contents.
Context (env : Env).

Lemma cached_nodes root m w w' t :
  nodes w' = nodes w → cached env root m w t → cached env root m w' t.
Proof. intros Hn (data & Hd & Ht). exists data. by rewrite Hn. Qed.

(** With the archive in the cache and a manifest that parses,
    [verifyPkgContents] closes the manifest reader and traverses. *)
Lemma verifyPkgContents_traverse root m w t cs :
  let pn := Join3 env root cache (Pkg m) in
  cached env root m w t →
  manifest_parses t cs →
  verifyPkgContents env root m w =
    match file_Close_err env pn with
    | Some err =>
        (Some (Wrap err "closing manifest reader"),
         advance w (handles w) [EvOpen pn; EvClose (FileHandle pn)])
    | None =>
        verifyPkgContents_loop env pn cs (entries t) (next_err t)
          (advance w (FileHandle pn :: handles w)
             [EvOpen pn; EvClose (FileHandle pn); EvOpen pn])
    end.
Proof.
  intros pn (data & Hd & Ht) (man & Hman & Hparse & Hscan).
  rewrite (verifyPkgContents_eq env root m w (File data) Hd).
  cbn [tar_view f_node]. rewrite Ht, Hman, Hparse, Hscan. done.
Qed.

(** An archive with a content entry that does not match its manifest is
    rejected by [verifyPkgContents], in every state of handles and trace. *)
Lemma verifyPkgContents_rejects root m w t cs hdr :
  cached env root m w t →
  manifest_parses t cs →
  hdr ∈ entries t → is_content hdr = true → ¬ matches env cs hdr →
  is_Some (fst (verifyPkgContents env root m w)).
Proof.
  intros Hc Hm Hin Hcont Hbad.
  rewrite (verifyPkgContents_traverse root m w t cs Hc Hm).
  destruct (file_Close_err env _); [by eexists|].
  by eapply verifyPkgContents_loop_rejects.
Qed.

Lemma Install_loop_rejects_archive root ms m w t cs hdr :
  cached env root m w t →
  manifest_parses t cs →
  hdr ∈ entries t → is_content hdr = true → ¬ matches env cs hdr →
  m ∈ ms →
  is_Some (fst (Install_loop env root ms w)).
Proof.
  intros Hc Hm Hin Hcont Hbad Hms.
  apply (Install_loop_rejects env root ms m w Hms).
  intros w' Hw'. eapply verifyPkgContents_rejects; eauto using cached_nodes.
Qed.

End Contents.

(** C6. An archive that holds a content entry (not a directory, not one of
    the two control entries) whose name the manifest mapping lacks is
    rejected by [verifyPkgContents]; when the entries in front of it pass,
    the error is [UndeclaredFile] naming that entry and the traversal ends
    there: the digests computed are those of the entries in front of it,
    nothing of the entry or of what follows it is read. No run of the loop
    of [Install] over a batch with this package gets to its end, so no
    commit can follow. *)
Theorem undeclared_file_rejected env root m w t cs pre hdr post :
  let pn := Join3 env root cache (Pkg m) in
  cached env root m w t →
  manifest_parses t cs →
  entries t = pre ++ hdr :: post →
  is_content hdr = true →
  cs !! Name hdr = None →
  is_Some (fst (verifyPkgContents env root m w))
  ∧ (file_Close_err env pn = None →
     Forall (λ h, is_content h = true → matches env cs h) pre →
     verifyPkgContents env root m w =
       (Some (UndeclaredFile (Name hdr)),
        advance w (FileHandle pn :: handles w)
          ([EvOpen pn; EvClose (FileHandle pn); EvOpen pn] ++
           (EvSha256 pn <$> (Name <$> filter (λ h, is_content h = true) pre)))))
  ∧ (∀ ms, m ∈ ms → is_Some (fst (Install_loop env root ms w))).
Proof.
  intros pn Hc Hm Hes Hcont Hcs.
  assert (Hin : hdr ∈ entries t) by (rewrite Hes; set_solver).
  assert (Hbad : ¬ matches env cs hdr).
  { intros [Hm' _]. rewrite Hcs in Hm'. done. }
  split; [by eapply verifyPkgContents_rejects|]. split.
  - intros Hclose Hpre.
    rewrite (verifyPkgContents_traverse env root m w t cs Hc Hm).
    fold pn. rewrite Hclose, Hes.
    rewrite (verifyPkgContents_loop_app env pn cs pre (hdr :: post)) by done.
    simpl. unfold is_content in Hcont.
    apply andb_true_iff in Hcont as [Hctl Hd].
    apply bool_decide_eq_true in Hctl. apply negb_true_iff in Hd.
    rewrite decide_False by exact Hctl. rewrite Hd, Hcs.
    unfold mret, M_ret. by rewrite advance_advance.
  - intros ms Hms. by eapply Install_loop_rejects_archive.
Qed.

Lemma undeclared_file_rejected_witness :
  let w := Scenario.cached_world "foo-extra" in
  let r := verifyPkgContents Scenario.env "root" (Scenario.meta "foo-extra") w in
  fst r = Some (UndeclaredFile "bin/bar") ∧ hashed (trace (snd r)) = []
  ∧ is_Some (fst (Install_loop Scenario.env "root"
                    [Scenario.meta "foo-1.0"; Scenario.meta "foo-extra"] w)).
Proof.
  intros w r.
  destruct (undeclared_file_rejected Scenario.env "root"
              (Scenario.meta "foo-extra") w Scenario.foo_extra Scenario.foo_map
              (Scenario.signed Scenario.manifest ++ [Scenario.bin_dir])
              (Scenario.file "bin/bar" "yo") [Scenario.file "bin/foo" "hi"])
    as (_ & Hstop & Hloop).
  - exists "foo-extra". split; vm_compute; reflexivity.
  - exists (Scenario.rd Scenario.manifest). repeat split; vm_compute; reflexivity.
  - reflexivity.
  - reflexivity.
  - vm_compute. reflexivity.
  - assert (Hpre : Forall (λ h, is_content h = true →
                                matches Scenario.env Scenario.foo_map h)
                      (Scenario.signed Scenario.manifest ++ [Scenario.bin_dir])).
    { repeat (apply List.Forall_cons;
              [intros H; vm_compute in H; discriminate H|]).
      apply List.Forall_nil. }
    split; [|split].
    + unfold r. rewrite (Hstop eq_refl Hpre). reflexivity.
    + unfold r. rewrite (Hstop eq_refl Hpre). reflexivity.
    + apply Hloop. apply (list_elem_of_lookup_2 _ 1%nat). reflexivity.
Defined.

(** C7. A declared content entry whose digest, printed in lower-case
    hexadecimal, differs from the digest the manifest records for its path
    makes [verifyPkgContents] reject the archive; when the entries in front
    of it pass, the error is [ChecksumMismatch] naming that path, raised
    right after its digest is computed, with nothing after it read. No run
    of the loop of [Install] over a batch with this package gets to its end,
    so no commit can follow. *)
Theorem checksum_mismatch_rejected env root m w t cs pre hdr post sha :
  let pn := Join3 env root cache (Pkg m) in
  cached env root m w t →
  manifest_parses t cs →
  entries t = pre ++ hdr :: post →
  is_content hdr = true →
  cs !! Name hdr = Some sha →
  fail (content hdr) = None →
  sha ≠ Sprintf_x (sha256_Sum env (bytes (content hdr))) →
  is_Some (fst (verifyPkgContents env root m w))
  ∧ (file_Close_err env pn = None →
     Forall (λ h, is_content h = true → matches env cs h) pre →
     verifyPkgContents env root m w =
       (Some (ChecksumMismatch (Name hdr)),
        advance w (FileHandle pn :: handles w)
          ([EvOpen pn; EvClose (FileHandle pn); EvOpen pn] ++
           (EvSha256 pn <$> (Name <$> filter (λ h, is_content h = true) pre)) ++
           [EvSha256 pn (Name hdr)])))
  ∧ (∀ ms, m ∈ ms → is_Some (fst (Install_loop env root ms w))).
Proof.
  intros pn Hc Hm Hes Hcont Hcs Hfail Hne.
  assert (Hin : hdr ∈ entries t) by (rewrite Hes; set_solver).
  assert (Hbad : ¬ matches env cs hdr).
  { intros [Hm' _]. rewrite Hcs in Hm'. by injection Hm'. }
  split; [by eapply verifyPkgContents_rejects|]. split.
  - intros Hclose Hpre.
    rewrite (verifyPkgContents_traverse env root m w t cs Hc Hm).
    fold pn. rewrite Hclose, Hes.
    rewrite (verifyPkgContents_loop_app env pn cs pre (hdr :: post)) by done.
    simpl. unfold is_content in Hcont.
    apply andb_true_iff in Hcont as [Hctl Hd].
    apply bool_decide_eq_true in Hctl. apply negb_true_iff in Hd.
    rewrite decide_False by exact Hctl. rewrite Hd, Hcs.
    unfold mbind, M_bind, emit. simpl. rewrite Hfail.
    rewrite decide_True by exact Hne.
    unfold mret, M_ret, advance. simpl. by rewrite <- !app_assoc.
  - intros ms Hms. by eapply Install_loop_rejects_archive.
Qed.

Lemma checksum_mismatch_rejected_witness :
  let w := Scenario.cached_world "foo-tampered" in
  let r := verifyPkgContents Scenario.env "root" (Scenario.meta "foo-tampered") w in
  fst r = Some (ChecksumMismatch "bin/foo")
  ∧ hashed (trace (snd r)) = [("root/var/cache/pm/foo-tampered", "bin/foo")]
  ∧ is_Some (fst (Install_loop Scenario.env "root"
                    [Scenario.meta "foo-1.0"; Scenario.meta "foo-tampered"] w)).
Proof.
  intros w r.
  destruct (checksum_mismatch_rejected Scenario.env "root"
              (Scenario.meta "foo-tampered") w Scenario.foo_tampered
              Scenario.foo_map
              (Scenario.signed Scenario.manifest ++ [Scenario.bin_dir])
              (Scenario.file "bin/foo" "ho") [Scenario.file "bin/baz" "zz"]
              "6869")
    as (_ & Hstop & Hloop).
  - exists "foo-tampered". split; vm_compute; reflexivity.
  - exists (Scenario.rd Scenario.manifest). repeat split; vm_compute; reflexivity.
  - reflexivity.
  - reflexivity.
  - vm_compute. reflexivity.
  - reflexivity.
  - vm_compute. intros H. discriminate H.
  - assert (Hpre : Forall (λ h, is_content h = true →
                                matches Scenario.env Scenario.foo_map h)
                      (Scenario.signed Scenario.manifest ++ [Scenario.bin_dir])).
    { repeat (apply List.Forall_cons;
              [intros H; vm_compute in H; discriminate H|]).
      apply List.Forall_nil. }
    split; [|split].
    + unfold r. rewrite (Hstop eq_refl Hpre). reflexivity.
    + unfold r. rewrite (Hstop eq_refl Hpre). reflexivity.
    + apply Hloop. apply (list_elem_of_lookup_2 _ 1%nat). reflexivity.
Defined.

(** C1, as the code has it. A manifest path with no entry in the archive
    goes unnoticed: with every content entry that is present matching and
    the archive readable to its end, [verifyPkgContents] returns nil, after
    hashing the content entries present and nothing else. *)
Theorem missing_declared_file_accepted env root m w t cs p :
  let pn := Join3 env root cache (Pkg m) in
  cached env root m w t →
  manifest_parses t cs →
  is_Some (cs !! p) →
  p ∉ (Name <$> entries t) →
  Forall (λ h, is_content h = true → matches env cs h) (entries t) →
  next_err t = None →
  file_Close_err env pn = None →
  verifyPkgContents env root m w =
    (None,
     advance w (FileHandle pn :: handles w)
       ([EvOpen pn; EvClose (FileHandle pn); EvOpen pn] ++
        (EvSha256 pn <$> (Name <$> filter (λ h, is_content h = true) (entries t))))).
Proof.
  intros pn Hc Hm _ _ Hall Hlast Hclose.
  rewrite (verifyPkgContents_traverse env root m w t cs Hc Hm).
  fold pn. rewrite Hclose, Hlast.
  rewrite <- (app_nil_r (entries t)) at 1.
  rewrite (verifyPkgContents_loop_app env pn cs (entries t) []) by done.
  simpl. unfold mret, M_ret. by rewrite advance_advance.
Qed.

Lemma missing_declared_file_accepted_witness :
  let w := Scenario.cached_world "foo-missing" in
  verifyPkgContents Scenario.env "root" (Scenario.meta "foo-missing") w =
    (None,
     advance w [FileHandle "root/var/cache/pm/foo-missing"]
       [EvOpen "root/var/cache/pm/foo-missing";
        EvClose (FileHandle "root/var/cache/pm/foo-missing");
        EvOpen "root/var/cache/pm/foo-missing"]).
Proof.
  intros w.
  apply (missing_declared_file_accepted Scenario.env "root"
           (Scenario.meta "foo-missing") w Scenario.foo_missing
           Scenario.foo_map "bin/foo").
  - exists "foo-missing". split; vm_compute; reflexivity.
  - exists (Scenario.rd Scenario.manifest). repeat split; vm_compute; reflexivity.
  - exists "6869". vm_compute. reflexivity.
  - intros H. vm_compute in H.
    repeat (apply elem_of_cons in H as [H|H]; [discriminate H|]).
    by apply elem_of_nil in H.
  - repeat (apply List.Forall_cons;
            [intros H; vm_compute in H; discriminate H|]).
    apply List.Forall_nil.
  - reflexivity.
  - reflexivity.
Defined.

(** C1 fails at the scenario of the specification: [bin/foo] is declared by
    the manifest and gone from the archive, and [verifyPkgContents] accepts
    the package. *)
Lemma missing_declared_file_counterexample :
  let w := Scenario.cached_world "foo-missing" in
  cached Scenario.env "root" (Scenario.meta "foo-missing") w Scenario.foo_missing
  ∧ manifest_parses Scenario.foo_missing Scenario.foo_map
  ∧ Scenario.foo_map !! "bin/foo" = Some "6869"
  ∧ ("bin/foo" ∉ (Name <$> entries Scenario.foo_missing))
  ∧ fst (verifyPkgContents Scenario.env "root" (Scenario.meta "foo-missing") w)
    = None.
Proof.
  intros w. split; [|split; [|split; [|split]]].
  - exists "foo-missing". split; vm_compute; reflexivity.
  - exists (Scenario.rd Scenario.manifest). repeat split; vm_compute; reflexivity.
  - vm_compute. reflexivity.
  - intros H. vm_compute in H.
    repeat (apply elem_of_cons in H as [H|H]; [discriminate H|]).
    by apply elem_of_nil in H.
  - vm_compute. reflexivity.
Qed.

(** ** Manifest parsing *)

Lemma Split_cons s sep : ∃ x xs, Split s sep = x :: xs.
Proof.
  induction s as [|a s (x & xs & IH)]; simpl; [by eauto|].
  destruct (Ascii.eqb a sep); [by eauto|]. rewrite IH. by eauto.
Qed.

Lemma append_empty_r (s : string) : s +:+ EmptyString = s.
Proof.
  induction s as [|b s IH]; [done|].
  change (String b (s +:+ EmptyString) = String b s). by rewrite IH.
Qed.

Lemma append_snoc (s : string) a x :
  (s +:+ String a EmptyString) +:+ x = s +:+ String a x.
Proof.
  induction s as [|b s IH]; [done|].
  change (String b ((s +:+ String a EmptyString) +:+ x)
          = String b (s +:+ String a x)).
  by rewrite IH.
Qed.

Lemma raw_lines_Split s cur :
  ∃ x xs, Split s lf = x :: xs
          ∧ raw_lines s cur = drop_blank_tail ((cur +:+ x) :: xs).
Proof.
  revert cur. induction s as [|a s IH]; intros cur; simpl.
  - exists EmptyString, []. split; [done|]. simpl.
    rewrite append_empty_r. done.
  - destruct (Ascii.eqb a lf).
    + exists EmptyString, (Split s lf). split; [done|].
      rewrite append_empty_r.
      destruct (IH EmptyString) as (x & xs & Hs & Hr). rewrite Hr, Hs.
      done.
    + destruct (IH (cur +:+ String a EmptyString)) as (x & xs & Hs & Hr).
      rewrite Hs. exists (String a x), xs. split; [done|].
      rewrite Hr. by rewrite append_snoc.
Qed.

(** Scanning cuts at newlines and passes over a blank last line. *)
Lemma raw_lines_drop_blank_tail s :
  raw_lines s EmptyString = drop_blank_tail (Split s lf).
Proof.
  destruct (raw_lines_Split s EmptyString) as (x & xs & Hs & Hr).
  by rewrite Hr, Hs.
Qed.

Lemma scan_tokens_short raw e :
  Forall (λ l, len l < MaxScanTokenSize) raw →
  scan_tokens raw e = (dropCR <$> raw, e).
Proof.
  induction 1 as [|l raw Hl _ IH]; simpl; [done|].
  destruct (Z.leb_spec MaxScanTokenSize (len l)); [lia|].
  by rewrite IH.
Qed.

Lemma parse_lines_app l1 l2 cs :
  parse_lines (l1 ++ l2) cs =
    match parse_lines l1 cs with
    | Ok cs' => parse_lines l2 cs'
    | Err e => Err e
    end.
Proof.
  revert cs. induction l1 as [|l l1 IH]; intros cs; simpl; [done|].
  destruct (Split l tab) as [|e0 [|e1 [|e2 es]]]; try done.
Qed.

Lemma two_fields_Split l : two_fields l → ∃ d p, Split l tab = [d; p].
Proof.
  unfold two_fields. destruct (Split l tab) as [|e0 [|e1 [|e2 es]]];
    simpl; intros H; try discriminate H. by eauto.
Qed.

(** Well-formed lines parse, and a path no line mentions keeps what the
    mapping had for it. *)
Lemma parse_lines_ok lines cs :
  Forall two_fields lines →
  ∃ cs', parse_lines lines cs = Ok cs'
         ∧ ∀ p, (∀ l d, l ∈ lines → Split l tab ≠ [d; p]) → cs' !! p = cs !! p.
Proof.
  intros Hall. revert cs.
  induction Hall as [|l lines Hl _ IH]; intros cs; simpl.
  - exists cs. done.
  - destruct (two_fields_Split l Hl) as (d & q & Hs). rewrite Hs.
    destruct (IH (<[q := d]> cs)) as (cs' & Hp & Hkeep).
    exists cs'. split; [done|]. intros p Hno.
    rewrite Hkeep.
    + apply lookup_insert_ne. intros ->. eapply (Hno l d); [|done].
      apply elem_of_cons. by left.
    + intros l' d' Hin. apply Hno. apply elem_of_cons. by right.
Qed.

(** One malformed line fails the parse, with the field count of the first
    such line. *)
Lemma parse_lines_err lines cs :
  Exists (λ l, ¬ two_fields l) lines →
  ∃ n, n ≠ 2 ∧ parse_lines lines cs = Err (FormatError n).
Proof.
  intros Hex. revert cs.
  induction lines as [|l lines IH]; intros cs; [by inversion Hex|].
  simpl. destruct (decide (two_fields l)) as [Hl|Hl].
  - destruct (two_fields_Split l Hl) as (d & q & Hs). rewrite Hs.
    apply IH. inversion Hex; subst; [done|done].
  - unfold two_fields in Hl.
    destruct (Split l tab) as [|e0 [|e1 [|e2 es]]]; simpl in Hl;
      try (eexists; split; [|reflexivity]; simpl; lia).
    done.
Qed.

(** The newline that ends the last line gives no line of its own; a blank
    line in front of the end is a line like any other, of one field. *)
Example manifest_lines :
  fst (Scanner (Scenario.rd Scenario.manifest))
  = ["6869" +:+ String tab "bin/foo"].
Proof. vm_compute. reflexivity. Qed.

Example manifest_blank_line :
  parse_lines
    (fst (Scanner (Scenario.rd (Scenario.manifest +:+ String lf EmptyString)))) ∅
  = Err (FormatError 1).
Proof. vm_compute. reflexivity. Qed.

Example Sprintf_x_lower_case :
  Sprintf_x (String "255"%char (String "010"%char EmptyString)) = "ff0a".
Proof. vm_compute. reflexivity. Qed.

Lemma Forall_drop_blank_tail (P : string → Prop) l :
  Forall P l → Forall P (drop_blank_tail l).
Proof.
  induction 1 as [|x l Hx Hl IH]; simpl; [done|].
  destruct l as [|y l].
  - case_decide; by constructor.
  - by constructor.
Qed.

(** C8. The manifest lines are the transcript cut at every newline, a blank
    last line left out (and one trailing carriage return dropped per line).
    A line among them that does not split into exactly two tab-separated
    fields ends [verifyPkgContents] with the format error, the archive
    opened once and no entry looked at; lines that all split in two always
    parse. Whenever the manifest does not parse in full, for a malformed
    line or a failed scan, [verifyPkgContents] returns an error without
    computing any digest. *)
Theorem manifest_parse_all_or_nothing env root m w t man :
  let pn := Join3 env root cache (Pkg m) in
  let lines := fst (Scanner man) in
  cached env root m w t →
  getReadCloser_loop "manifest.sha256" (entries t) (next_err t) = Ok man →
  (Forall (λ l, len l < MaxScanTokenSize) (Split (bytes man) lf) →
   lines = dropCR <$> drop_blank_tail (Split (bytes man) lf))
  ∧ (Exists (λ l, ¬ two_fields l) lines →
     ∃ n, n ≠ 2
          ∧ verifyPkgContents env root m w =
              (Some (FormatError n),
               advance w (FileHandle pn :: handles w) [EvOpen pn]))
  ∧ (Forall two_fields lines → ∃ cs, parse_lines lines ∅ = Ok cs)
  ∧ ((∀ cs, ¬ manifest_parses t cs) →
     is_Some (fst (verifyPkgContents env root m w))
     ∧ hashed (trace (snd (verifyPkgContents env root m w))) = hashed (trace w)).
Proof.
  intros pn lines (data & Hd & Ht) Hman.
  pose proof (verifyPkgContents_eq env root m w (File data) Hd) as Heq.
  cbn [tar_view f_node] in Heq. rewrite Ht, Hman in Heq. fold pn in Heq.
  split; [|split; [|split]].
  - intros Hshort. unfold lines, Scanner.
    rewrite raw_lines_drop_blank_tail.
    rewrite scan_tokens_short by by apply Forall_drop_blank_tail.
    done.
  - intros Hex. destruct (parse_lines_err lines ∅ Hex) as (n & Hn & Hp).
    exists n. split; [done|]. rewrite Heq. fold lines. by rewrite Hp.
  - intros Hall. destruct (parse_lines_ok lines ∅ Hall) as (cs & Hp & _).
    by exists cs.
  - intros Hno. rewrite Heq.
    destruct (parse_lines (fst (Scanner man)) ∅) as [cs|err] eqn:Hp.
    + destruct (file_Close_err env pn).
      { split; [by eexists|]. simpl. by rewrite hashed_app, app_nil_r. }
      destruct (snd (Scanner man)) eqn:Hs.
      { split; [by eexists|]. simpl. by rewrite hashed_app, app_nil_r. }
      exfalso. apply (Hno cs). by exists man.
    + split; [by eexists|]. simpl. by rewrite hashed_app, app_nil_r.
Qed.

Lemma manifest_parse_all_or_nothing_witness :
  let w := Scenario.cached_world "foo-badman" in
  let r := verifyPkgContents Scenario.env "root" (Scenario.meta "foo-badman") w in
  fst (Scanner (Scenario.rd Scenario.manifest_bad)) =
    ["6869" +:+ String tab "bin/foo";
     "6869" +:+ String tab "bin" +:+ String tab "foo"]
  ∧ fst r = Some (FormatError 3)
  ∧ trace (snd r) = [EvOpen "root/var/cache/pm/foo-badman"].
Proof.
  intros w r.
  destruct (manifest_parse_all_or_nothing Scenario.env "root"
              (Scenario.meta "foo-badman") w Scenario.foo_badman
              (Scenario.rd Scenario.manifest_bad))
    as (Hlines & Hbad & _ & _).
  - exists "foo-badman". split; vm_compute; reflexivity.
  - vm_compute. reflexivity.
  - split.
    + rewrite Hlines; [vm_compute; reflexivity|].
      vm_compute. repeat (apply List.Forall_cons; [reflexivity|]).
      apply List.Forall_nil.
    + destruct Hbad as (n & Hn & Hr).
      * apply List.Exists_cons_tl, List.Exists_cons_hd.
        vm_compute. intros H. discriminate H.
      * unfold r. rewrite Hr. simpl.
        assert (Hv : fst (verifyPkgContents Scenario.env "root"
                            (Scenario.meta "foo-badman") w)
                     = Some (FormatError 3)) by (vm_compute; reflexivity).
        rewrite Hr in Hv. simpl in Hv. split; [exact Hv|reflexivity].
Defined.

(** C5, as the code has it. Two lines with the same path do not fail the
    parse: with every line of two fields the parse succeeds, and the path is
    mapped to the digest of the last line that names it. *)
Theorem duplicate_paths_last_wins lines1 l1 lines2 l2 lines3 d1 d2 p cs0 :
  Forall two_fields (lines1 ++ lines2 ++ lines3) →
  Split l1 tab = [d1; p] →
  Split l2 tab = [d2; p] →
  (∀ l d, l ∈ lines3 → Split l tab ≠ [d; p]) →
  ∃ cs, parse_lines (lines1 ++ l1 :: lines2 ++ l2 :: lines3) cs0 = Ok cs
        ∧ cs !! p = Some d2.
Proof.
  intros Hall H1 H2 Hlast.
  apply Forall_app in Hall as [Hall1 Hall23].
  apply Forall_app in Hall23 as [Hall2 Hall3].
  assert (Hl1 : two_fields l1) by (unfold two_fields; by rewrite H1).
  destruct (parse_lines_ok (lines1 ++ l1 :: lines2) cs0) as (csA & HpA & _).
  { apply Forall_app. split; [done|]. by constructor. }
  destruct (parse_lines_ok lines3 (<[p := d2]> csA) Hall3) as (cs & Hp & Hkeep).
  exists cs. split.
  - replace (lines1 ++ l1 :: lines2 ++ l2 :: lines3)
      with ((lines1 ++ l1 :: lines2) ++ l2 :: lines3)
      by (by rewrite <- app_assoc).
    rewrite parse_lines_app, HpA. simpl. by rewrite H2.
  - rewrite Hkeep by (intros l d Hin; by apply Hlast).
    apply lookup_insert_eq.
Qed.

Lemma duplicate_paths_last_wins_witness :
  ∃ cs, parse_lines (fst (Scanner (Scenario.rd Scenario.manifest_dup))) ∅ = Ok cs
        ∧ cs !! "bin/foo" = Some "6869".
Proof.
  apply (duplicate_paths_last_wins [] ("0000" +:+ String tab "bin/foo") []
           ("6869" +:+ String tab "bin/foo") [] "0000" "6869" "bin/foo" ∅).
  - apply List.Forall_nil.
  - reflexivity.
  - reflexivity.
  - intros l d H. by apply elem_of_nil in H.
Defined.

(** C5 fails on a manifest with two lines for [bin/foo]: the parse gives a
    mapping, the first line's digest is forgotten, and the archive is
    accepted. *)
Lemma duplicate_paths_counterexample :
  let l1 := "0000" +:+ String tab "bin/foo" in
  let l2 := "6869" +:+ String tab "bin/foo" in
  fst (Scanner (Scenario.rd Scenario.manifest_dup)) = [l1; l2]
  ∧ Split l1 tab = ["0000"; "bin/foo"]
  ∧ Split l2 tab = ["6869"; "bin/foo"]
  ∧ parse_lines [l1; l2] ∅ = Ok Scenario.foo_map
  ∧ fst (verifyPkgContents Scenario.env "root" (Scenario.meta "foo-dup")
           (Scenario.cached_world "foo-dup")) = None.
Proof. repeat split; vm_compute; reflexivity. Qed.

(** ** The orchestrator *)

Section Orchestrator.
Context (env : Env).

(** [download] writes nowhere but at the cache files of its packages. *)
Lemma download_frame cacheDir ms w p :
  (∀ pkg, p ≠ filepath_Join env cacheDir pkg) →
  nodes (snd (download env cacheDir ms w)) !! p = nodes w !! p.
Proof.
  intros Hp. revert w. induction ms as [|m ms IH]; intros w; [done|].
  simpl. unfold mbind, M_bind, emit. simpl.
  destruct (http_Get env (URL m)) as [resp|err]; [|done].
  unfold os_Create, mbind, M_bind, emit, stat, acquire, put. simpl.
  destruct (nodes w !! filepath_Join env cacheDir (Pkg m)) as [[|data]|];
    [done|..];
    (destruct (os_Create_err env _); [done|]; simpl;
     unfold io_Copy; simpl;
     destruct (decide (bytes (Body resp) = EmptyString));
     [|destruct (write_err env _)]; simpl;
     try (destruct (fail (Body resp)); simpl);
     try (destruct (Body_Close_err resp); simpl);
     rewrite ?IH; simpl;
     rewrite ?lookup_insert_ne by (by apply not_eq_sym); done).
Qed.

End Orchestrator.

(** C10. [Install] returns an error on every input: each stage that fails
    returns its wrapped error, and the run in which resolution, cache setup,
    fetch and both verifications succeed for every package ends with the
    error [NYI]. Nothing is installed: the only paths of the file system a
    run can change are the cache directory and the cache files in it. *)
Theorem Install_never_succeeds env root pkgs w :
  let cacheDir := filepath_Join env root cache in
  is_Some (fst (Install env root pkgs w))
  ∧ ∀ p, p ≠ cacheDir → (∀ pkg, p ≠ filepath_Join env cacheDir pkg) →
         nodes (snd (Install env root pkgs w)) !! p = nodes w !! p.
Proof.
  intros cacheDir.
  destruct (Install env root pkgs w) as [r w'] eqn:HI. simpl.
  unfold Install in HI. fold cacheDir in HI.
  destruct (db_LoadAvailable env root) as [av|err];
    [|by inversion HI; subst; split; [eexists|]].
  destruct (av pkgs) as [ms|err];
    [|by inversion HI; subst; split; [eexists|]].
  assert (Hrest : ∀ w1,
    (∀ p, p ≠ cacheDir → nodes w1 !! p = nodes w !! p) →
    (nd ← stat cacheDir;
     match nd with
     | Some Dir =>
         r ← download env cacheDir ms;
         match r with
         | Some err => mret (Some (Wrap err "downloading"))
         | None =>
             r ← Install_loop env root ms;
             match r with
             | Some err => mret (Some err)
             | None => mret (Some (New "NYI"))
             end
         end
     | _ => mret (Some (Errorf "%q is not a directory!" [ArgS cacheDir]))
     end) w1 = (r, w') →
    is_Some r
    ∧ ∀ p, p ≠ cacheDir → (∀ pkg, p ≠ filepath_Join env cacheDir pkg) →
           nodes w' !! p = nodes w !! p).
  { intros w1 Hw1. unfold mbind, M_bind, stat, mret, M_ret.
    destruct (nodes w1 !! cacheDir) as [[|data]|];
      try (intros [= <- <-]; split; [by eexists|]; intros p Hp _; by apply Hw1).
    pose proof (download_frame env cacheDir ms w1) as Hd.
    destruct (download env cacheDir ms w1) as [[err|] w2]; simpl in Hd.
    { intros [= <- <-]. split; [by eexists|]. intros p Hp Hq.
      rewrite Hd by done. by apply Hw1. }
    pose proof (Install_loop_nodes env root ms w2) as Hl.
    destruct (Install_loop env root ms w2) as [[err|] w3]; simpl in Hl;
      (intros [= <- <-]; split; [by eexists|]; intros p Hp Hq;
       rewrite Hl, Hd by done; by apply Hw1). }
  unfold mbind at 1 in HI. unfold M_bind at 1 in HI. unfold stat at 1 in HI.
  destruct (nodes w !! cacheDir) as [nd|] eqn:Hex.
  - unfold mbind at 1 in HI. unfold M_bind at 1 in HI.
    unfold mret at 1 in HI. unfold M_ret at 1 in HI.
    by apply (Hrest w).
  - unfold mbind at 1 in HI. unfold M_bind at 1 in HI.
    unfold os_MkdirAll, emit in HI. unfold mbind at 1 in HI.
    unfold M_bind at 1 in HI.
    destruct (os_MkdirAll_err env cacheDir) as [err|].
    + inversion HI; subst. split; [by eexists|]. done.
    + unfold mbind at 1 in HI. unfold M_bind at 1 in HI. unfold put in HI.
      unfold mret at 1 in HI. unfold M_ret at 1 in HI.
      apply Hrest in HI; [done|].
      intros p Hp. simpl. by apply lookup_insert_ne.
Qed.

Lemma Install_never_succeeds_witness :
  let r := Install Scenario.env "root" ["foo-1.0"] Scenario.empty_world in
  is_Some (fst r) ∧ nodes (snd r) !! "root/bin/foo" = None.
Proof.
  intros r.
  destruct (Install_never_succeeds Scenario.env "root" ["foo-1.0"]
              Scenario.empty_world) as [Herr Hframe].
  split; [exact Herr|].
  unfold r. rewrite (Hframe "root/bin/foo").
  - reflexivity.
  - vm_compute. intros H. discriminate H.
  - intros pkg. vm_compute. intros H. discriminate H.
Defined.

(** ** Release of the readers *)

(** C9 does not hold of the code. When the key ring rejects the pair,
    [verifyManifestIntegrity] returns at once: the manifest reader and the
    signature reader both stay open and no [Close] is ever called. When
    [getReadCloser] does not find the entry (or the traversal fails), the
    file it opened stays open as well. *)
Theorem readers_not_released_on_failure env root m w t man sig err :
  let pn := Join3 env root cache (Pkg m) in
  cached env root m w t →
  getReadCloser_loop "manifest.sha256" (entries t) (next_err t) = Ok man →
  getReadCloser_loop "manifest.sha256.asc" (entries t) (next_err t) = Ok sig →
  keyring_Verify env root man sig = Some err →
  verifyManifestIntegrity env root m w =
    (Some (Wrap err "verifying manifest"),
     advance w (FileHandle pn :: FileHandle pn :: handles w)
       [EvOpen pn; EvOpen pn; EvKeyringVerify pn false])
  ∧ ∀ fn e, getReadCloser_loop fn (entries t) (next_err t) = Err e →
            getReadCloser env pn fn w =
              (Err e, advance w (FileHandle pn :: handles w) [EvOpen pn]).
Proof.
  intros pn (data & Hd & Ht) Hman Hsig Hv. split.
  - rewrite (verifyManifestIntegrity_eq env root m w (File data) Hd).
    cbn [tar_view f_node]. by rewrite Ht, Hman, Hsig, Hv.
  - intros fn e He.
    rewrite (getReadCloser_open env pn fn w (File data) Hd).
    cbn [tar_view f_node]. by rewrite Ht, He.
Qed.

Lemma readers_not_released_on_failure_witness :
  let w := Scenario.cached_world "foo-badsig" in
  let r := verifyManifestIntegrity Scenario.env "root" (Scenario.meta "foo-badsig") w in
  fst r = Some (Wrap (External "openpgp: invalid signature") "verifying manifest")
  ∧ handles (snd r) = [FileHandle "root/var/cache/pm/foo-badsig";
                       FileHandle "root/var/cache/pm/foo-badsig"]
  ∧ handles (snd (getReadCloser Scenario.env "root/var/cache/pm/foo-badsig"
                    "no-such-entry" w))
    = [FileHandle "root/var/cache/pm/foo-badsig"].
Proof.
  intros w r.
  destruct (readers_not_released_on_failure Scenario.env "root"
              (Scenario.meta "foo-badsig") w Scenario.foo_badsig
              (Scenario.rd Scenario.manifest) (Scenario.rd "sig(forged)")
              (External "openpgp: invalid signature")) as [Hvmi Hget].
  - exists "foo-badsig". split; vm_compute; reflexivity.
  - vm_compute. reflexivity.
  - vm_compute. reflexivity.
  - vm_compute. reflexivity.
  - unfold r. rewrite Hvmi. split; [reflexivity|]. split; [reflexivity|].
    change "root/var/cache/pm/foo-badsig"
      with (Join3 Scenario.env "root" cache (Pkg (Scenario.meta "foo-badsig"))).
    rewrite (Hget "no-such-entry" (Errorf "%q not found" [ArgS "no-such-entry"])).
    + reflexivity.
    + vm_compute. reflexivity.
Defined.

(** ** The fetcher *)

Section Fetcher.
Context (env : Env).

(** One turn of the loop of [download]: it requests the package's URL, and
    either returns an error or, the fetch not being one that fails, goes on
    with the rest. *)
Lemma download_cons cacheDir m ms w :
  (∃ err w1 evs, download env cacheDir (m :: ms) w = (Some err, w1)
                 ∧ trace w1 = trace w ++ evs ∧ fetched evs = [URL m]
                 ∧ hashed evs = [])
  ∨ (¬ fetch_fails env cacheDir m
     ∧ ∃ w1 evs, download env cacheDir (m :: ms) w = download env cacheDir ms w1
                 ∧ trace w1 = trace w ++ evs ∧ fetched evs = [URL m]
                 ∧ hashed evs = []).
Proof.
  simpl. unfold mbind, M_bind, emit, fetch_fails. simpl.
  destruct (http_Get env (URL m)) as [resp|err]; [|stops].
  unfold os_Create, mbind, M_bind, emit, stat, acquire, put. simpl.
  destruct (nodes w !! filepath_Join env cacheDir (Pkg m)) as [[|data]|];
    [stops|..];
    (destruct (os_Create_err env _) eqn:Hc; [stops|]; simpl;
     unfold io_Copy; simpl;
     destruct (decide (bytes (Body resp) = EmptyString)) as [Hb|Hb];
     [|destruct (write_err env _) eqn:Hw; [stops|]]; simpl;
     (destruct (fail (Body resp)) eqn:Hf; [stops|]); simpl;
     (destruct (Body_Close_err resp) eqn:Hcl; [stops|]); simpl;
     goes_on).
Qed.

(** The fetcher computes no digest. *)
Lemma download_nohash cacheDir ms w :
  ∃ evs, trace (snd (download env cacheDir ms w)) = trace w ++ evs
         ∧ hashed evs = [].
Proof.
  revert w. induction ms as [|m ms IH]; intros w.
  { exists []. simpl. by rewrite app_nil_r. }
  destruct (download_cons cacheDir m ms w)
    as [(err & w1 & evs & -> & Ht & _ & Hh)|(_ & w1 & evs & -> & Ht & _ & Hh)].
  - by exists evs.
  - destruct (IH w1) as (evs' & Ht' & Hh'). exists (evs ++ evs'). split.
    + by rewrite Ht', Ht, app_assoc.
    + by rewrite hashed_app, Hh, Hh'.
Qed.

End Fetcher.

(** C4, as the code has it. When the fetch of one package fails, by a
    transport error of [http.Get], a cache file that cannot be created or
    written, or a response body that breaks off or does not close,
    [download] returns an error, and the URLs it has requested are an
    initial part of those up to that package: no later package is fetched.
    The status code of a response plays no part. *)
Theorem fetch_is_fail_fast env cacheDir pre m post w :
  fetch_fails env cacheDir m →
  is_Some (fst (download env cacheDir (pre ++ m :: post) w))
  ∧ ∃ evs, trace (snd (download env cacheDir (pre ++ m :: post) w))
             = trace w ++ evs
           ∧ fetched evs `prefix_of` (URL <$> (pre ++ [m])).
Proof.
  intros Hfail. revert w. induction pre as [|m' pre IH]; intros w.
  - change ([] ++ m :: post) with (m :: post).
    destruct (download_cons env cacheDir m post w)
      as [(err & w1 & evs & -> & Ht & Hf & _)|[Hno _]]; [|done].
    split; [by eexists|]. exists evs. split; [done|]. by rewrite Hf.
  - change ((m' :: pre) ++ m :: post) with (m' :: (pre ++ m :: post)).
    destruct (download_cons env cacheDir m' (pre ++ m :: post) w)
      as [(err & w1 & evs & -> & Ht & Hf & _)|(_ & w1 & evs & -> & Ht & Hf & _)].
    + split; [by eexists|]. exists evs. split; [done|]. rewrite Hf.
      by exists (URL <$> (pre ++ [m])).
    + destruct (IH w1) as (Herr & evs' & Ht' & Hp). split; [done|].
      exists (evs ++ evs'). split.
      * by rewrite Ht', Ht, app_assoc.
      * rewrite fetched_app, Hf. simpl. by apply prefix_cons.
Qed.

Lemma fetch_is_fail_fast_witness :
  let r := download Scenario.env "c"
             [Scenario.meta "foo-1.0"; Scenario.meta "unreachable";
              Scenario.meta "foo-extra"] Scenario.empty_world in
  is_Some (fst r)
  ∧ ∃ evs, trace (snd r) = evs
           ∧ fetched evs `prefix_of` ["foo-1.0"; "unreachable"].
Proof.
  intros r.
  apply (fetch_is_fail_fast Scenario.env "c" [Scenario.meta "foo-1.0"]
           (Scenario.meta "unreachable") [Scenario.meta "foo-extra"]
           Scenario.empty_world).
  vm_compute. exact I.
Defined.

(** C4 fails for a non-success status: the remote answers the first request
    with status 404, [download] stores the body of that answer as the
    package's archive, goes on to fetch the next package, and returns nil. *)
Lemma non_success_status_counterexample :
  let r := download Scenario.env "c"
             [Scenario.meta "nope"; Scenario.meta "foo-1.0"]
             Scenario.empty_world in
  (∃ resp, http_Get Scenario.env (URL (Scenario.meta "nope")) = Ok resp
           ∧ StatusCode resp = 404)
  ∧ fst r = None
  ∧ fetched (trace (snd r)) = ["nope"; "foo-1.0"]
  ∧ nodes (snd r) !! "c/nope" = Some (File "404 page not found").
Proof.
  intros r. split.
  - eexists. split; vm_compute; reflexivity.
  - repeat split; vm_compute; reflexivity.
Qed.

(** ** Packages that verify *)

Section Valid.
Context (env : Env).

Lemma valid_nodes root m w w' :
  nodes w' = nodes w → valid env root m w → valid env root m w'.
Proof.
  intros Hn (t & cs & Hc & H). exists t, cs. split; [|done].
  by eapply cached_nodes.
Qed.

Lemma valid_verifyManifestIntegrity root m w :
  valid env root m w → fst (verifyManifestIntegrity env root m w) = None.
Proof.
  intros (t & cs & (data & Hd & Ht) & (man & sig & Hman & Hsig & Hv) & _ & _ & _ & Hclose).
  rewrite (verifyManifestIntegrity_eq env root m w (File data) Hd).
  cbn [tar_view f_node]. by rewrite Ht, Hman, Hsig, Hv, Hclose.
Qed.

Lemma valid_verifyPkgContents root m w :
  valid env root m w → fst (verifyPkgContents env root m w) = None.
Proof.
  intros (t & cs & Hc & _ & Hm & Hall & Hlast & Hclose).
  rewrite (verifyPkgContents_traverse env root m w t cs Hc Hm).
  rewrite Hclose, Hlast.
  rewrite <- (app_nil_r (entries t)).
  by rewrite (verifyPkgContents_loop_app env _ cs (entries t) []).
Qed.

Lemma valid_Install_loop root ms w :
  (∀ m, m ∈ ms → valid env root m w) →
  fst (Install_loop env root ms w) = None.
Proof.
  revert w. induction ms as [|m ms IH]; intros w Hall; [done|].
  simpl. unfold mbind, M_bind, emit. simpl.
  assert (Hm : m ∈ m :: ms) by (apply elem_of_cons; by left).
  match goal with
  | |- context [verifyManifestIntegrity env root m ?w'] =>
      pose proof (verifyManifestIntegrity_nodes env root m w') as Hn1;
      pose proof (valid_verifyManifestIntegrity root m w'
                    (valid_nodes root m w w' eq_refl (Hall m Hm))) as Hr1;
      destruct (verifyManifestIntegrity env root m w') as [r1 w1]
  end.
  simpl in Hn1, Hr1. subst r1.
  pose proof (verifyPkgContents_nodes env root m w1) as Hn2.
  pose proof (valid_verifyPkgContents root m w1
                (valid_nodes root m w w1 Hn1 (Hall m Hm))) as Hr2.
  destruct (verifyPkgContents env root m w1) as [r2 w2].
  simpl in Hn2, Hr2. subst r2.
  apply IH. intros m' Hm'. apply (valid_nodes root m' w); [congruence|].
  apply Hall. apply elem_of_cons. by right.
Qed.

End Valid.

(** C3, as the code has it. When the requested packages resolve, the cache
    directory exists, the fetch succeeds and every package of the batch is a
    valid triple, both verification stages return nil for each package, the
    loop of [Install] runs to its end without an error, and [Install] then
    stops at the commit stage that is not written: it returns the error
    [NYI]. *)
Theorem valid_packages_pass_verification env root pkgs av ms w0 w :
  let cacheDir := filepath_Join env root cache in
  db_LoadAvailable env root = Ok av →
  av pkgs = Ok ms →
  nodes w0 !! cacheDir = Some Dir →
  download env cacheDir ms w0 = (None, w) →
  (∀ m, m ∈ ms → valid env root m w) →
  (∀ m, m ∈ ms → fst (verifyManifestIntegrity env root m w) = None
                 ∧ fst (verifyPkgContents env root m w) = None)
  ∧ fst (Install_loop env root ms w) = None
  ∧ fst (Install env root pkgs w0) = Some (New "NYI").
Proof.
  intros cacheDir Hav Hms Hdir Hdl Hall.
  pose proof (valid_Install_loop env root ms w Hall) as Hloop.
  split; [|split; [done|]].
  - intros m Hm. split.
    + by apply valid_verifyManifestIntegrity, Hall.
    + by apply valid_verifyPkgContents, Hall.
  - unfold Install. rewrite Hav, Hms. fold cacheDir.
    unfold mbind, M_bind, stat, mret, M_ret. rewrite Hdir. cbn beta iota.
    rewrite Hdir, Hdl.
    destruct (Install_loop env root ms w) as [r w'].
    simpl in Hloop. by subst r.
Qed.

Lemma valid_packages_pass_verification_witness :
  let w := snd (download Scenario.env "root/var/cache/pm"
                  [Scenario.meta "foo-1.0"] Scenario.cache_world) in
  fst (verifyManifestIntegrity Scenario.env "root" (Scenario.meta "foo-1.0") w)
    = None
  ∧ fst (verifyPkgContents Scenario.env "root" (Scenario.meta "foo-1.0") w)
    = None
  ∧ fst (Install Scenario.env "root" ["foo-1.0"] Scenario.cache_world)
    = Some (New "NYI").
Proof.
  intros w.
  destruct (valid_packages_pass_verification Scenario.env "root" ["foo-1.0"]
              (λ pkgs, Ok (map Scenario.meta pkgs)) [Scenario.meta "foo-1.0"]
              Scenario.cache_world w) as (Hpkg & _ & HI).
  - reflexivity.
  - reflexivity.
  - vm_compute. reflexivity.
  - vm_compute. reflexivity.
  - intros m Hm. apply list_elem_of_singleton in Hm. subst m.
    exists Scenario.foo_good, Scenario.foo_map.
    split; [exists "foo-1.0"; split; vm_compute; reflexivity|].
    split; [exists (Scenario.rd Scenario.manifest),
              (Scenario.rd ("sig(" +:+ Scenario.manifest +:+ ")"));
            repeat split; vm_compute; reflexivity|].
    split; [exists (Scenario.rd Scenario.manifest);
            repeat split; vm_compute; reflexivity|].
    split; [|split; reflexivity].
    repeat (apply List.Forall_cons;
            [intros H; first [ vm_compute in H; discriminate H
                             | split; vm_compute; reflexivity ]|]).
    apply List.Forall_nil.
  - destruct (Hpkg (Scenario.meta "foo-1.0")) as [H1 H2].
    { apply list_elem_of_singleton. reflexivity. }
    split; [exact H1|]. split; [exact H2|exact HI].
Defined.

(** C3 fails at the valid package [foo-1.0]: its archive is fetched, its
    manifest is trusted and every content entry matches, and yet [Install]
    returns an error and leaves the file [bin/foo] uninstalled. *)
Lemma valid_package_counterexample :
  let r := Install Scenario.env "root" ["foo-1.0"] Scenario.cache_world in
  cached Scenario.env "root" (Scenario.meta "foo-1.0") (snd r) Scenario.foo_good
  ∧ trusted Scenario.env "root" Scenario.foo_good
  ∧ manifest_parses Scenario.foo_good Scenario.foo_map
  ∧ fst r = Some (New "NYI")
  ∧ nodes (snd r) !! "root/bin/foo" = None.
Proof.
  intros r. split; [|split; [|split; [|split]]].
  - exists "foo-1.0". split; vm_compute; reflexivity.
  - exists (Scenario.rd Scenario.manifest),
      (Scenario.rd ("sig(" +:+ Scenario.manifest +:+ ")")).
    repeat split; vm_compute; reflexivity.
  - exists (Scenario.rd Scenario.manifest). repeat split; vm_compute; reflexivity.
  - vm_compute. reflexivity.
  - vm_compute. reflexivity.
Qed.

(** ** Order of the two verifications *)

Section Order.
Context (env : Env).

(** The outcome of trust verification is a matter of the archive file and
    of the collaborators only. *)
Lemma verifyManifestIntegrity_fst root m1 m2 w1 w2 :
  Join3 env root cache (Pkg m1) = Join3 env root cache (Pkg m2) →
  nodes w1 = nodes w2 →
  fst (verifyManifestIntegrity env root m1 w1)
  = fst (verifyManifestIntegrity env root m2 w2).
Proof.
  intros Hpn Hn.
  destruct (nodes w1 !! Join3 env root cache (Pkg m1)) as [nd|] eqn:H1.
  - assert (H2 : nodes w2 !! Join3 env root cache (Pkg m2) = Some nd)
      by (by rewrite <- Hpn, <- Hn).
    rewrite (verifyManifestIntegrity_eq env root m1 w1 nd H1).
    rewrite (verifyManifestIntegrity_eq env root m2 w2 nd H2).
    rewrite <- Hpn. repeat case_match; reflexivity.
  - assert (H2 : nodes w2 !! Join3 env root cache (Pkg m2) = None)
      by (by rewrite <- Hpn, <- Hn).
    rewrite (verifyManifestIntegrity_absent env root m1 w1 H1).
    by rewrite (verifyManifestIntegrity_absent env root m2 w2 H2).
Qed.

(** Trust verification computes no digest, and when it returns nil the key
    ring has accepted the manifest of this archive. *)
Lemma verifyManifestIntegrity_effect root m w :
  let pn := Join3 env root cache (Pkg m) in
  ∃ hs evs,
    snd (verifyManifestIntegrity env root m w) = advance w hs evs
    ∧ hashed evs = []
    ∧ (fst (verifyManifestIntegrity env root m w) = None →
       EvKeyringVerify pn true ∈ evs).
Proof.
  intros pn.
  destruct (nodes w !! pn) as [nd|] eqn:Hn.
  - rewrite (verifyManifestIntegrity_eq env root m w nd Hn). fold pn.
    repeat case_match; simpl;
      (eexists _, _; split; [reflexivity|]; split; [reflexivity|]);
      intros Hnil; try discriminate Hnil.
    apply (list_elem_of_lookup_2 _ 2%nat). reflexivity.
  - rewrite (verifyManifestIntegrity_absent env root m w Hn). simpl.
    eexists _, _. split; [reflexivity|]. split; [reflexivity|].
    intros H; discriminate H.
Qed.

(** Content verification only hashes entries of this package's archive. *)
Lemma verifyPkgContents_effect root m w :
  let pn := Join3 env root cache (Pkg m) in
  ∃ hs evs,
    snd (verifyPkgContents env root m w) = advance w hs evs
    ∧ ∀ pn' n, EvSha256 pn' n ∈ evs → pn' = pn.
Proof.
  intros pn.
  assert (Hnone : ∀ pn' n (l : list event),
            hashed l = [] → EvSha256 pn' n ∈ l → pn' = pn).
  { intros pn' n l Hl Hin. exfalso.
    apply hashed_elem in Hin. rewrite Hl in Hin. by apply elem_of_nil in Hin. }
  destruct (nodes w !! pn) as [nd|] eqn:Hn.
  - rewrite (verifyPkgContents_eq env root m w nd Hn). fold pn.
    repeat case_match; simpl;
      try (eexists _, _; split; [reflexivity|];
           intros pn' n; by apply Hnone).
    match goal with
    | |- context [verifyPkgContents_loop env pn ?cs ?es ?l ?w'] =>
        destruct (verifyPkgContents_loop_effect env pn cs es l w') as [names ->]
    end.
    rewrite advance_advance. eexists _, _. split; [reflexivity|].
    intros pn' n Hin. apply elem_of_app in Hin as [Hin|Hin].
    + by apply (Hnone pn' n [EvOpen pn; EvClose (FileHandle pn); EvOpen pn]).
    + apply list_elem_of_fmap in Hin as (x & Hx & _). by injection Hx.
  - rewrite (verifyPkgContents_absent env root m w Hn). simpl.
    eexists _, _. split; [reflexivity|]. intros pn' n. by apply Hnone.
Qed.

(** One turn of the loop of [Install]. *)
Lemma Install_loop_cons root m ms w :
  let pn := Join3 env root cache (Pkg m) in
  (is_Some (fst (verifyManifestIntegrity env root m w))
   ∧ ∃ err hs e1,
       Install_loop env root (m :: ms) w =
         (Some (Wrap err "verifying pkg integrity"), advance w hs (EvLog m :: e1))
       ∧ hashed e1 = [])
  ∨ (fst (verifyManifestIntegrity env root m w) = None
     ∧ ∃ hs e1 e2,
         hashed e1 = []
         ∧ EvKeyringVerify pn true ∈ e1
         ∧ (∀ pn' n, EvSha256 pn' n ∈ e2 → pn' = pn)
         ∧ ((∃ err, Install_loop env root (m :: ms) w =
                      (Some (Wrap err "verifying pkg contents"),
                       advance w hs (EvLog m :: e1 ++ e2)))
            ∨ Install_loop env root (m :: ms) w =
                Install_loop env root ms (advance w hs (EvLog m :: e1 ++ e2)))).
Proof.
  intros pn. simpl. unfold mbind, M_bind, emit. simpl.
  set (w0 := {| nodes := nodes w; handles := handles w;
                trace := trace w ++ [EvLog m] |}).
  rewrite (verifyManifestIntegrity_fst root m m w w0 eq_refl eq_refl).
  destruct (verifyManifestIntegrity_effect root m w0)
    as (hs1 & e1 & Hs1 & Hh1 & Hv1).
  destruct (verifyManifestIntegrity env root m w0) as [[err|] w1];
    simpl in Hs1, Hv1; subst w1.
  - left. split; [by eexists|]. exists err, hs1, e1. split; [|done].
    unfold advance, w0; simpl. by rewrite <- app_assoc.
  - right. split; [done|].
    destruct (verifyPkgContents_effect root m (advance w0 hs1 e1))
      as (hs2 & e2 & Hs2 & Hh2).
    exists hs2, e1, e2. split; [done|]. split; [by apply Hv1|].
    split; [done|].
    assert (Hw : advance (advance w0 hs1 e1) hs2 e2
                 = advance w hs2 (EvLog m :: e1 ++ e2)).
    { unfold advance, w0; simpl. by rewrite <- !app_assoc. }
    destruct (verifyPkgContents env root m (advance w0 hs1 e1)) as [[err|] w2];
      simpl in Hs2; subst w2; rewrite Hw.
    + left. by exists err.
    + by right.
Qed.

End Order.

Lemma trust_first_nohash evs : hashed evs = [] → trust_first evs.
Proof.
  intros Hh evs1 pn name evs2 ->. exfalso.
  assert (Hin : (pn, name) ∈ hashed (evs1 ++ EvSha256 pn name :: evs2)).
  { apply hashed_elem, elem_of_app. right. apply elem_of_cons. by left. }
  rewrite Hh in Hin. by apply elem_of_nil in Hin.
Qed.

Lemma trust_first_app a b :
  trust_first a →
  (∀ b1 pn n b2, b = b1 ++ EvSha256 pn n :: b2 →
                 EvKeyringVerify pn true ∈ a ++ b1) →
  trust_first (a ++ b).
Proof.
  intros Ha Hb evs1 pn name evs2 Heq. symmetry in Heq.
  apply app_eq_inv in Heq as [(k & -> & Hk)|(k & Hk & Hsha)].
  - by apply (Hb k pn name evs2).
  - destruct k as [|x k]; simpl in Hsha.
    + rewrite app_nil_r in Hk. subst a.
      pose proof (Hb [] pn name evs2 (eq_sym Hsha)) as Hin.
      by rewrite app_nil_r in Hin.
    + injection Hsha as <- ->. by apply (Ha evs1 pn name k).
Qed.

Section OrderLoop.
Context (env : Env).

Lemma Install_loop_trace root ms w :
  ∃ evs,
    trace (snd (Install_loop env root ms w)) = trace w ++ evs
    ∧ trust_first evs
    ∧ ∀ m, m ∈ ms →
           is_Some (fst (verifyManifestIntegrity env root m w)) →
           ∀ name, EvSha256 (Join3 env root cache (Pkg m)) name ∉ evs.
Proof.
  revert w. induction ms as [|m ms IH]; intros w.
  { exists []. simpl. rewrite app_nil_r. split; [done|].
    split; [by apply trust_first_nohash|]. intros m Hm. by apply elem_of_nil in Hm. }
  set (pn := Join3 env root cache (Pkg m)).
  assert (Hsame : ∀ m0 w', nodes w' = nodes w →
            Join3 env root cache (Pkg m0) = pn →
            fst (verifyManifestIntegrity env root m0 w')
            = fst (verifyManifestIntegrity env root m w)).
  { intros m0 w' Hn Hpn. by apply verifyManifestIntegrity_fst. }
  destruct (Install_loop_cons env root m ms w)
    as [(Hfail & err & hs & e1 & -> & Hh1)
       |(Hok & hs & e1 & e2 & Hh1 & Hv & Hh2 & Hrun)].
  - exists (EvLog m :: e1). split; [done|].
    assert (Hh : hashed (EvLog m :: e1) = []) by done.
    split; [by apply trust_first_nohash|].
    intros m0 _ _ name Hin. apply hashed_elem in Hin.
    rewrite Hh in Hin. by apply elem_of_nil in Hin.
  - fold pn in Hv, Hh2.
    assert (Hfirst : trust_first ((EvLog m :: e1) ++ e2)).
    { apply trust_first_app; [by apply trust_first_nohash|].
      intros b1 pn' n b2 ->. apply elem_of_app. left.
      rewrite (Hh2 pn' n) by (apply elem_of_app; right; apply elem_of_cons; by left).
      apply elem_of_cons. by right. }
    assert (Hhead : ∀ m0 name,
              is_Some (fst (verifyManifestIntegrity env root m0 w)) →
              EvSha256 (Join3 env root cache (Pkg m0)) name
                ∉ (EvLog m :: e1) ++ e2).
    { intros m0 name [e He] Hin. apply elem_of_app in Hin as [Hin|Hin].
      - apply hashed_elem in Hin.
        assert (Hh : hashed (EvLog m :: e1) = []) by done.
        rewrite Hh in Hin. by apply elem_of_nil in Hin.
      - pose proof (Hh2 _ _ Hin) as Hpn.
        rewrite (Hsame m0 w eq_refl Hpn), Hok in He. discriminate He. }
    destruct Hrun as [[err ->]| ->].
    + exists ((EvLog m :: e1) ++ e2). split; [done|]. split; [done|].
      intros m0 _ Hf name. by apply Hhead.
    + destruct (IH (advance w hs (EvLog m :: e1 ++ e2)))
        as (evs & Ht & Hf & Hno).
      exists (((EvLog m :: e1) ++ e2) ++ evs). split.
      { rewrite Ht. simpl. by rewrite <- (app_assoc (trace w)). }
      split.
      { apply trust_first_app; [done|].
        intros b1 pn' n b2 Heq. apply elem_of_app. right.
        by apply (Hf b1 pn' n b2). }
      intros m0 Hm0 Hfail name Hin.
      apply elem_of_app in Hin as [Hin|Hin]; [by apply (Hhead m0 name)|].
      apply elem_of_cons in Hm0 as [->|Hm0].
      { destruct Hfail as [e He]. rewrite Hok in He. discriminate He. }
      refine (Hno m0 Hm0 _ name Hin).
      by rewrite (verifyManifestIntegrity_fst env root m0 m0
                    (advance w hs (EvLog m :: e1 ++ e2)) w eq_refl eq_refl).
Qed.

(** The whole of [Install]: nothing in front of the loop computes a
    digest. *)
Lemma Install_trace root pkgs w :
  ∃ evs, trace (snd (Install env root pkgs w)) = trace w ++ evs
         ∧ trust_first evs.
Proof.
  assert (Hnil : ∃ evs, trace w = trace w ++ evs ∧ trust_first evs).
  { exists []. rewrite app_nil_r. split; [done|]. by apply trust_first_nohash. }
  unfold Install. set (cacheDir := filepath_Join env root cache).
  destruct (db_LoadAvailable env root) as [av|err]; [|done].
  destruct (av pkgs) as [ms|err]; [|done].
  assert (Hrest : ∀ w1 pre,
    trace w1 = trace w ++ pre → hashed pre = [] →
    ∃ evs,
      trace (snd ((nd ← stat cacheDir;
         match nd with
         | Some Dir =>
             r ← download env cacheDir ms;
             match r with
             | Some err => mret (Some (Wrap err "downloading"))
             | None =>
                 r ← Install_loop env root ms;
                 match r with
                 | Some err => mret (Some err)
                 | None => mret (Some (New "NYI"))
                 end
             end
         | _ => mret (Some (Errorf "%q is not a directory!" [ArgS cacheDir]))
         end) w1)) = trace w ++ evs
      ∧ trust_first evs).
  { intros w1 pre Hw1 Hpre. unfold mbind, M_bind, stat, mret, M_ret.
    destruct (nodes w1 !! cacheDir) as [[|data]|];
      try (exists pre; split; [done|]; by apply trust_first_nohash).
    destruct (download_nohash env cacheDir ms w1) as (dl & Hdl & Hhdl).
    destruct (download env cacheDir ms w1) as [[err|] w2]; simpl in Hdl.
    { exists (pre ++ dl). simpl. split; [by rewrite Hdl, Hw1, app_assoc|].
      apply trust_first_nohash. by rewrite hashed_app, Hpre, Hhdl. }
    destruct (Install_loop_trace root ms w2) as (evs & Ht & Hf & _).
    exists ((pre ++ dl) ++ evs). split.
    - destruct (Install_loop env root ms w2) as [[err|] w3]; simpl in Ht |- *;
        by rewrite Ht, Hdl, Hw1, !app_assoc.
    - apply trust_first_app.
      + apply trust_first_nohash. by rewrite hashed_app, Hpre, Hhdl.
      + intros b1 pn n b2 Heq. apply elem_of_app. right.
        by apply (Hf b1 pn n b2). }
  unfold mbind at 1. unfold M_bind at 1. unfold stat at 1.
  destruct (nodes w !! cacheDir) as [nd|].
  - unfold mbind at 1. unfold M_bind at 1.
    unfold mret at 1. unfold M_ret at 1.
    apply (Hrest w []); [by rewrite app_nil_r|done].
  - unfold mbind at 1. unfold M_bind at 1.
    unfold os_MkdirAll, emit. unfold mbind at 1. unfold M_bind at 1.
    destruct (os_MkdirAll_err env cacheDir) as [err|].
    + exists [EvMkdirAll cacheDir]. split; [done|].
      by apply trust_first_nohash.
    + unfold mbind at 1. unfold M_bind at 1. unfold put.
      unfold mret at 1. unfold M_ret at 1.
      by apply (Hrest _ [EvMkdirAll cacheDir]).
Qed.

End OrderLoop.

(** C2. In every run of [Install], and of its verification loop from any
    state, a digest is computed over an archive only after
    [verifyManifestIntegrity] has had the key ring accept that archive's
    manifest. A package of the batch whose trust verification fails has no
    digest computed over its archive at any point of the loop; when it is
    the package at hand, the loop ends there with the wrapped trust error
    and without any digest computed. *)
Theorem trust_precedes_content env root :
  (∀ pkgs w,
     ∃ evs, trace (snd (Install env root pkgs w)) = trace w ++ evs
            ∧ trust_first evs)
  ∧ (∀ ms w,
       ∃ evs,
         trace (snd (Install_loop env root ms w)) = trace w ++ evs
         ∧ trust_first evs
         ∧ (∀ m, m ∈ ms →
                 is_Some (fst (verifyManifestIntegrity env root m w)) →
                 ∀ name, EvSha256 (Join3 env root cache (Pkg m)) name ∉ evs)
         ∧ (∀ m rest, ms = m :: rest →
                      is_Some (fst (verifyManifestIntegrity env root m w)) →
                      hashed evs = []
                      ∧ ∃ err, fst (Install_loop env root ms w)
                               = Some (Wrap err "verifying pkg integrity"))).
Proof.
  split; [intros pkgs w; apply Install_trace|]. intros ms w.
  destruct (Install_loop_trace env root ms w) as (evs & Ht & Hf & Hno).
  exists evs. split; [done|]. split; [done|]. split; [done|].
  intros m rest -> Hfail.
  destruct (Install_loop_cons env root m rest w)
    as [(_ & err & hs & e1 & Heq & Hh1)|(Hok & _)].
  - rewrite Heq in Ht |- *. simpl in Ht. apply app_inv_head in Ht. subst evs.
    split; [done|]. by exists err.
  - destruct Hfail as [e He]. rewrite Hok in He. discriminate He.
Qed.

Lemma trust_precedes_content_witness :
  let w := Scenario.cached_world "foo-badsig" in
  let r := Install_loop Scenario.env "root" [Scenario.meta "foo-badsig"] w in
  hashed (trace (snd r)) = []
  ∧ ∃ err, fst r = Some (Wrap err "verifying pkg integrity").
Proof.
  intros w r.
  destruct (proj2 (trust_precedes_content Scenario.env "root")
              [Scenario.meta "foo-badsig"] w) as (evs & Ht & _ & _ & Hhead).
  destruct (Hhead (Scenario.meta "foo-badsig") [] eq_refl) as [Hh Herr].
  - vm_compute. eexists. reflexivity.
  - split; [|exact Herr]. unfold r. rewrite Ht. exact Hh.
Defined.

(** ** Finding an entry *)

Section Finding.
Context (env : Env).

Lemma getReadCloser_loop_app fn pre rest last :
  (∀ h, h ∈ pre → Name h ≠ fn) →
  getReadCloser_loop fn (pre ++ rest) last = getReadCloser_loop fn rest last.
Proof.
  induction pre as [|h pre IH]; intros Hpre; [done|].
  simpl. rewrite decide_False.
  - apply IH. intros h' Hh'. apply Hpre. apply elem_of_cons. by right.
  - apply Hpre. apply elem_of_cons. by left.
Qed.

Lemma getReadCloser_loop_none fn es last :
  (∀ h, h ∈ es → Name h ≠ fn) →
  getReadCloser_loop fn es last =
    Err (match last with
         | None => Errorf "%q not found" [ArgS fn]
         | Some err => Wrap err "tar traversal"
         end).
Proof.
  intros Hno. rewrite <- (app_nil_r es).
  rewrite getReadCloser_loop_app by done. simpl. by destruct last.
Qed.

Lemma getReadCloser_loop_some fn es last rd :
  getReadCloser_loop fn es last = Ok rd →
  ∃ pre hdr post, es = pre ++ hdr :: post ∧ Name hdr = fn
                  ∧ (∀ h, h ∈ pre → Name h ≠ fn) ∧ rd = content hdr.
Proof.
  induction es as [|h es IH]; simpl.
  - destruct last; intros H; discriminate H.
  - case_decide as Hn.
    + intros [= <-]. exists [], h, es. repeat split; [done|].
      intros h' Hh'. by apply elem_of_nil in Hh'.
    + intros Hr. destruct (IH Hr) as (pre & hdr & post & -> & Hname & Hpre & ->).
      exists (h :: pre), hdr, post. repeat split; [done|].
      intros h' Hh'. apply elem_of_cons in Hh' as [->|Hh']; [done|by apply Hpre].
Qed.

End Finding.

(** X1. [getReadCloser] gives the reader of the first entry with the name
    asked for: entries after it, a second entry of the same name and a
    traversal error further down the tape are never seen. The file stays
    open, for the reader to close. *)
Theorem getReadCloser_first_match env tn fn w data pre hdr post last :
  nodes w !! tn = Some (File data) →
  tar_NewReader env data = {| entries := pre ++ hdr :: post; next_err := last |} →
  Name hdr = fn →
  (∀ h, h ∈ pre → Name h ≠ fn) →
  getReadCloser env tn fn w =
    (Ok {| f := {| f_path := tn; f_node := File data |}; tr := content hdr |},
     advance w (FileHandle tn :: handles w) [EvOpen tn]).
Proof.
  intros Hn Ht Hname Hpre.
  rewrite (getReadCloser_open env tn fn w (File data) Hn).
  cbn [tar_view f_node]. rewrite Ht. cbn [entries next_err].
  rewrite getReadCloser_loop_app by done. simpl. by rewrite decide_True.
Qed.

Lemma getReadCloser_first_match_witness :
  fst (getReadCloser More.env "root/var/cache/pm/foo-dup2" "manifest.sha256"
         (Scenario.cached_world "foo-dup2"))
  = Ok {| f := {| f_path := "root/var/cache/pm/foo-dup2"; f_node := File "foo-dup2" |};
          tr := Scenario.rd Scenario.manifest |}.
Proof.
  rewrite (getReadCloser_first_match More.env "root/var/cache/pm/foo-dup2"
             "manifest.sha256" (Scenario.cached_world "foo-dup2") "foo-dup2"
             [Scenario.bin_dir] (Scenario.file "manifest.sha256" Scenario.manifest)
             (Scenario.file "manifest.sha256.asc" ("sig(" +:+ Scenario.manifest +:+ ")")
              :: Scenario.file "manifest.sha256" "forged"
              :: [Scenario.file "bin/foo" "hi"])
             (Some (External "unexpected EOF"))).
  - reflexivity.
  - vm_compute. reflexivity.
  - vm_compute. reflexivity.
  - reflexivity.
  - intros h Hh. apply list_elem_of_singleton in Hh. subst h.
    vm_compute. intros H. discriminate H.
Defined.

(** X2. [getReadCloser] returns a reader exactly when the archive exists and
    some entry of it has the name asked for. Otherwise the error tells why:
    the open error wrapped when nothing is at the path, the traversal error
    wrapped when the tape breaks before a match, and [not found] when the
    tape ends without one. *)
Theorem getReadCloser_errors env tn fn w :
  match nodes w !! tn with
  | None =>
      fst (getReadCloser env tn fn w)
      = Err (Wrap (External "open: no such file or directory") "opening pkg file")
  | Some nd =>
      let t := tar_view env {| f_path := tn; f_node := nd |} in
      ((∃ ts, fst (getReadCloser env tn fn w) = Ok ts)
       ↔ ∃ h, h ∈ entries t ∧ Name h = fn)
      ∧ ((∀ h, h ∈ entries t → Name h ≠ fn) →
         fst (getReadCloser env tn fn w)
         = Err (match next_err t with
                | None => Errorf "%q not found" [ArgS fn]
                | Some err => Wrap err "tar traversal"
                end))
  end.
Proof.
  destruct (nodes w !! tn) as [nd|] eqn:Hn.
  - intros t. rewrite (getReadCloser_open env tn fn w nd Hn). fold t.
    cbn [fst]. split; [split|].
    + intros [ts Hts].
      destruct (getReadCloser_loop fn (entries t) (next_err t)) as [rd|err] eqn:Hl;
        [|discriminate Hts].
      destruct (getReadCloser_loop_some fn _ _ rd Hl)
        as (pre & hdr & post & He & Hname & _ & _).
      exists hdr. split; [|done]. rewrite He. apply elem_of_app. right.
      apply elem_of_cons. by left.
    + intros (h & Hin & Hname).
      destruct (getReadCloser_loop fn (entries t) (next_err t)) as [rd|err] eqn:Hl;
        [by eexists|]. exfalso.
      clear Hn. revert Hl. induction (entries t) as [|h' es IH]; simpl.
      * by apply elem_of_nil in Hin.
      * case_decide as Hd; [intros H; discriminate H|].
        apply elem_of_cons in Hin as [->|Hin]; [done|]. by apply IH.
    + intros Hno. by rewrite getReadCloser_loop_none.
  - by rewrite getReadCloser_absent.
Qed.

Lemma getReadCloser_errors_witness :
  fst (getReadCloser Scenario.env "root/var/cache/pm/foo-1.0" "README"
         (Scenario.cached_world "foo-1.0"))
  = Err (Errorf "%q not found" [ArgS "README"]).
Proof.
  pose proof (getReadCloser_errors Scenario.env "root/var/cache/pm/foo-1.0"
                "README" (Scenario.cached_world "foo-1.0")) as H.
  change (nodes (Scenario.cached_world "foo-1.0") !! "root/var/cache/pm/foo-1.0")
    with (Some (File "foo-1.0")) in H.
  destruct H as [_ H]. rewrite H; [reflexivity|].
  intros h Hh. vm_compute in Hh.
  repeat (apply elem_of_cons in Hh as [->|Hh];
          [vm_compute; intros H0; discriminate H0|]).
  by apply elem_of_nil in Hh.
Defined.

(** ** What the two verifications accept *)

Section Accepting.
Context (env : Env).

Lemma is_content_true hdr :
  is_content hdr = true ↔ ¬ control hdr ∧ IsDir hdr = false.
Proof.
  unfold is_content. rewrite andb_true_iff, bool_decide_eq_true, negb_true_iff.
  done.
Qed.

Lemma is_content_false hdr :
  is_content hdr = false ↔ control hdr ∨ IsDir hdr = true.
Proof.
  unfold is_content. rewrite andb_false_iff, bool_decide_eq_false, negb_false_iff.
  split; (intros [H|H]; [left|by right]).
  - by apply dec_stable.
  - by intros Hn.
Qed.

(** The traversal returns nil exactly when every content entry matches and
    the tape ends cleanly. *)
Lemma verifyPkgContents_loop_nil pn cs es last w :
  fst (verifyPkgContents_loop env pn cs es last w) = None
  ↔ Forall (λ h, is_content h = true → matches env cs h) es ∧ last = None.
Proof.
  revert w. induction es as [|h es IH]; intros w; simpl.
  - destruct last; simpl; split; try done.
    + intros [_ H]; discriminate H.
  - rewrite Forall_cons.
    assert (Hskip : is_content h = false →
              (fst (verifyPkgContents_loop env pn cs es last w) = None
               ↔ ((is_content h = true → matches env cs h)
                  ∧ Forall (λ h, is_content h = true → matches env cs h) es)
                 ∧ last = None)).
    { intros Hc. rewrite IH. split.
      - intros [Hall Hl]. split; [split; [|done]|done].
        intros Hc'. congruence.
      - intros [[_ Hall] Hl]. done. }
    case_decide as Hctl.
    { apply Hskip. apply is_content_false. by left. }
    destruct (IsDir h) eqn:Hd.
    { apply Hskip. apply is_content_false. by right. }
    clear Hskip.
    assert (Hc : is_content h = true) by (by apply is_content_true).
    destruct (cs !! Name h) as [sha|] eqn:Hcs; simpl.
    2:{ split; [done|]. intros [[Hm _] _]. destruct (Hm Hc) as [Hm' _].
        rewrite Hcs in Hm'. discriminate Hm'. }
    unfold mbind, M_bind, emit; simpl.
    destruct (fail (content h)) as [err|] eqn:Hf; simpl.
    { split; [done|]. intros [[Hm _] _]. destruct (Hm Hc) as [_ Hm'].
      rewrite Hf in Hm'. discriminate Hm'. }
    case_decide as Hne; simpl.
    { split; [done|]. intros [[Hm _] _]. destruct (Hm Hc) as [Hm' _].
      rewrite Hcs in Hm'. by injection Hm'. }
    rewrite IH. split.
    + intros [Hall Hl]. split; [split; [|done]|done].
      intros _. split; [|done]. by rewrite Hcs, Hne.
    + intros [[_ Hall] Hl]. done.
Qed.

Lemma cached_tar_view root m w data :
  nodes w !! Join3 env root cache (Pkg m) = Some (File data) →
  ∀ t, cached env root m w t ↔ t = tar_NewReader env data.
Proof.
  intros Hn t. split.
  - intros (data' & Hd & <-). rewrite Hn in Hd. by injection Hd as <-.
  - intros ->. by exists data.
Qed.

Lemma verifyManifestIntegrity_nil root m w :
  let pn := Join3 env root cache (Pkg m) in
  fst (verifyManifestIntegrity env root m w) = None
  ↔ ∃ t, cached env root m w t ∧ trusted env root t
         ∧ file_Close_err env pn = None.
Proof.
  intros pn.
  destruct (nodes w !! pn) as [[|data]|] eqn:Hn.
  - rewrite (verifyManifestIntegrity_eq env root m w Dir Hn). simpl.
    split; [done|]. intros (t & (data & Hd & _) & _). fold pn in Hd.
    rewrite Hn in Hd. discriminate Hd.
  - rewrite (verifyManifestIntegrity_eq env root m w (File data) Hn).
    cbn [tar_view f_node]. fold pn. set (t := tar_NewReader env data).
    split.
    + intros Hnil. exists t. split; [by exists data|].
      destruct (getReadCloser_loop "manifest.sha256" _ _) as [man|] eqn:Hman;
        [|discriminate Hnil].
      destruct (getReadCloser_loop "manifest.sha256.asc" _ _) as [sig|] eqn:Hsig;
        [|discriminate Hnil].
      destruct (keyring_Verify env root man sig) eqn:Hv; [discriminate Hnil|].
      destruct (file_Close_err env pn) eqn:Hc; [discriminate Hnil|].
      split; [|done]. by exists man, sig.
    + intros (t' & Hc & (man & sig & Hman & Hsig & Hv) & Hclose).
      apply (cached_tar_view root m w data Hn) in Hc. subst t'. fold t in Hman, Hsig.
      by rewrite Hman, Hsig, Hv, Hclose.
  - rewrite (verifyManifestIntegrity_absent env root m w Hn). simpl.
    split; [done|]. intros (t & (data & Hd & _) & _). fold pn in Hd.
    rewrite Hn in Hd. discriminate Hd.
Qed.

Lemma verifyPkgContents_nil root m w :
  let pn := Join3 env root cache (Pkg m) in
  fst (verifyPkgContents env root m w) = None
  ↔ ∃ t cs, cached env root m w t ∧ manifest_parses t cs
            ∧ file_Close_err env pn = None
            ∧ Forall (λ h, is_content h = true → matches env cs h) (entries t)
            ∧ next_err t = None.
Proof.
  intros pn.
  destruct (nodes w !! pn) as [[|data]|] eqn:Hn.
  - rewrite (verifyPkgContents_eq env root m w Dir Hn). simpl.
    split; [done|]. intros (t & cs & (data & Hd & _) & _). fold pn in Hd.
    rewrite Hn in Hd. discriminate Hd.
  - rewrite (verifyPkgContents_eq env root m w (File data) Hn).
    cbn [tar_view f_node]. fold pn. set (t := tar_NewReader env data).
    split.
    + intros Hnil.
      destruct (getReadCloser_loop "manifest.sha256" _ _) as [man|] eqn:Hman;
        [|discriminate Hnil].
      destruct (parse_lines _ _) as [cs|] eqn:Hp; [|discriminate Hnil].
      destruct (file_Close_err env pn) eqn:Hc; [discriminate Hnil|].
      destruct (snd (Scanner man)) eqn:Hs; [discriminate Hnil|].
      apply verifyPkgContents_loop_nil in Hnil as [Hall Hlast].
      exists t, cs. split; [by exists data|]. split; [by exists man|]. done.
    + intros (t' & cs & Hc & (man & Hman & Hp & Hs) & Hclose & Hall & Hlast).
      apply (cached_tar_view root m w data Hn) in Hc. subst t'. fold t in Hman.
      rewrite Hman, Hp, Hclose, Hs. by apply verifyPkgContents_loop_nil.
  - rewrite (verifyPkgContents_absent env root m w Hn). simpl.
    split; [done|]. intros (t & cs & (data & Hd & _) & _). fold pn in Hd.
    rewrite Hn in Hd. discriminate Hd.
Qed.

Lemma manifest_parses_inj t cs cs' :
  manifest_parses t cs → manifest_parses t cs' → cs = cs'.
Proof.
  intros (man & Hm & Hp & _) (man' & Hm' & Hp' & _).
  rewrite Hm in Hm'. injection Hm' as <-. rewrite Hp in Hp'. by injection Hp'.
Qed.

Lemma verified_valid root m w :
  fst (verifyManifestIntegrity env root m w) = None →
  fst (verifyPkgContents env root m w) = None →
  valid env root m w.
Proof.
  intros H1 H2. apply verifyManifestIntegrity_nil in H1 as (t & Hc & Ht & Hcl).
  apply verifyPkgContents_nil in H2 as (t' & cs & Hc' & Hm & _ & Hall & Hl).
  destruct Hc as (data & Hd & <-). destruct Hc' as (data' & Hd' & <-).
  rewrite Hd in Hd'. injection Hd' as <-.
  exists (tar_NewReader env data), cs. repeat split; try done. by exists data.
Qed.

(** A nil return from trust verification leaves the handles as they were;
    one from content verification leaves the archive open once more. *)
Lemma verifyManifestIntegrity_nil_handles root m w :
  fst (verifyManifestIntegrity env root m w) = None →
  handles (snd (verifyManifestIntegrity env root m w)) = handles w.
Proof.
  destruct (nodes w !! Join3 env root cache (Pkg m)) as [nd|] eqn:Hn.
  - rewrite (verifyManifestIntegrity_eq env root m w nd Hn).
    repeat case_match; simpl; intros Hnil; try discriminate Hnil. done.
  - rewrite (verifyManifestIntegrity_absent env root m w Hn).
    intros Hnil; discriminate Hnil.
Qed.

Lemma verifyPkgContents_nil_handles root m w :
  fst (verifyPkgContents env root m w) = None →
  handles (snd (verifyPkgContents env root m w))
  = FileHandle (Join3 env root cache (Pkg m)) :: handles w.
Proof.
  destruct (nodes w !! Join3 env root cache (Pkg m)) as [nd|] eqn:Hn.
  - rewrite (verifyPkgContents_eq env root m w nd Hn).
    repeat case_match; simpl; intros Hnil; try discriminate Hnil.
    match goal with
    | |- context [verifyPkgContents_loop env ?pn ?cs ?es ?l ?w'] =>
        destruct (verifyPkgContents_loop_effect env pn cs es l w') as [names ->]
    end.
    done.
  - rewrite (verifyPkgContents_absent env root m w Hn).
    intros Hnil; discriminate Hnil.
Qed.

End Accepting.

(** X3. [verifyManifestIntegrity] returns nil exactly when the archive is a
    regular file in the cache, both control entries are found in it, the key
    ring accepts the pair and the file closes; it has then opened the
    archive twice, asked the key ring once and closed both readers, so the
    open handles are those it started with. *)
Theorem trust_verification_accepts env root m w :
  let pn := Join3 env root cache (Pkg m) in
  (fst (verifyManifestIntegrity env root m w) = None
   ↔ ∃ t, cached env root m w t ∧ trusted env root t
          ∧ file_Close_err env pn = None)
  ∧ (fst (verifyManifestIntegrity env root m w) = None →
     snd (verifyManifestIntegrity env root m w)
     = advance w (handles w)
         [EvOpen pn; EvOpen pn; EvKeyringVerify pn true;
          EvClose (FileHandle pn); EvClose (FileHandle pn)]).
Proof.
  intros pn. split; [apply verifyManifestIntegrity_nil|].
  destruct (nodes w !! pn) as [nd|] eqn:Hn.
  - rewrite (verifyManifestIntegrity_eq env root m w nd Hn). fold pn.
    repeat case_match; simpl; intros Hnil; try discriminate Hnil. done.
  - rewrite (verifyManifestIntegrity_absent env root m w Hn).
    intros Hnil; discriminate Hnil.
Qed.

Lemma trust_verification_accepts_witness :
  let w := Scenario.cached_world "foo-missing" in
  snd (verifyManifestIntegrity Scenario.env "root" (Scenario.meta "foo-missing") w)
  = advance w []
      [EvOpen "root/var/cache/pm/foo-missing";
       EvOpen "root/var/cache/pm/foo-missing";
       EvKeyringVerify "root/var/cache/pm/foo-missing" true;
       EvClose (FileHandle "root/var/cache/pm/foo-missing");
       EvClose (FileHandle "root/var/cache/pm/foo-missing")].
Proof.
  intros w.
  destruct (trust_verification_accepts Scenario.env "root"
              (Scenario.meta "foo-missing") w) as [Hiff Hsnd].
  apply Hsnd. apply Hiff. exists Scenario.foo_missing.
  split; [exists "foo-missing"; split; vm_compute; reflexivity|].
  split; [|reflexivity].
  exists (Scenario.rd Scenario.manifest),
    (Scenario.rd ("sig(" +:+ Scenario.manifest +:+ ")")).
  repeat split; vm_compute; reflexivity.
Defined.

(** X4. [verifyPkgContents] returns nil exactly when the archive is a
    regular file in the cache, its manifest is found, scans and parses, the
    manifest reader closes, every content entry is declared with the digest
    of its bytes and can be read, and the tape ends without an error. It has
    then left the archive open: one handle more than before. *)
Theorem content_verification_accepts env root m w :
  let pn := Join3 env root cache (Pkg m) in
  (fst (verifyPkgContents env root m w) = None
   ↔ ∃ t cs, cached env root m w t ∧ manifest_parses t cs
             ∧ file_Close_err env pn = None
             ∧ Forall (λ h, is_content h = true → matches env cs h) (entries t)
             ∧ next_err t = None)
  ∧ (fst (verifyPkgContents env root m w) = None →
     handles (snd (verifyPkgContents env root m w)) = FileHandle pn :: handles w).
Proof.
  intros pn. split; [apply verifyPkgContents_nil|].
  apply verifyPkgContents_nil_handles.
Qed.

Lemma content_verification_accepts_witness :
  let w := Scenario.cached_world "foo-1.0" in
  handles (snd (verifyPkgContents Scenario.env "root" (Scenario.meta "foo-1.0") w))
  = [FileHandle "root/var/cache/pm/foo-1.0"].
Proof.
  intros w.
  destruct (content_verification_accepts Scenario.env "root"
              (Scenario.meta "foo-1.0") w) as [Hiff Hh].
  apply Hh. apply Hiff. exists Scenario.foo_good, Scenario.foo_map.
  split; [exists "foo-1.0"; split; vm_compute; reflexivity|].
  split; [exists (Scenario.rd Scenario.manifest);
          repeat split; vm_compute; reflexivity|].
  split; [reflexivity|]. split; [|reflexivity].
  repeat (apply List.Forall_cons;
          [intros H; first [ vm_compute in H; discriminate H
                           | split; vm_compute; reflexivity ]|]).
  apply List.Forall_nil.
Defined.

Section Batch.
Context (env : Env).

Lemma Install_loop_nil_inv root ms w :
  fst (Install_loop env root ms w) = None →
  (∀ m, m ∈ ms → valid env root m w)
  ∧ handles (snd (Install_loop env root ms w))
    = archive_handles env root ms ++ handles w.
Proof.
  revert w. induction ms as [|m ms IH]; intros w.
  { intros _. split; [|done]. intros m Hm. by apply elem_of_nil in Hm. }
  simpl. unfold mbind, M_bind, emit. simpl.
  set (w0 := {| nodes := nodes w; handles := handles w;
                trace := trace w ++ [EvLog m] |}).
  pose proof (verifyManifestIntegrity_nodes env root m w0) as Hn1.
  pose proof (verifyManifestIntegrity_nil_handles env root m w0) as Hh1.
  pose proof (verified_valid env root m w0) as Hv.
  destruct (verifyManifestIntegrity env root m w0) as [[err|] w1];
    [intros H; discriminate H|].
  simpl in Hn1, Hh1. specialize (Hh1 eq_refl). specialize (Hv eq_refl).
  pose proof (verifyPkgContents_nodes env root m w1) as Hn2.
  pose proof (verifyPkgContents_nil_handles env root m w1) as Hh2.
  pose proof (verifyPkgContents_nil env root m w1) as Hnil2.
  pose proof (verifyPkgContents_nil env root m w0) as Hnil0.
  destruct (verifyPkgContents env root m w1) as [[err|] w2] eqn:Hr2;
    [intros H; discriminate H|].
  simpl in Hn2, Hh2, Hnil2. specialize (Hh2 eq_refl).
  intros Hnil. destruct (IH w2 Hnil) as [Hall Hh]. split.
  - intros m' Hm'. apply elem_of_cons in Hm' as [->|Hm'].
    + apply (valid_nodes env root m w0 w eq_refl). apply Hv.
      apply Hnil0.
      destruct (proj1 Hnil2 eq_refl) as (t & cs & Hc & Hrest).
      exists t, cs. split; [|done]. by apply (cached_nodes env root m w1 w0).
    + apply (valid_nodes env root m' w2 w); [|by apply Hall]. simpl in *. congruence.
  - rewrite Hh, Hh2, Hh1. unfold archive_handles. simpl.
    by rewrite <- app_assoc.
Qed.

End Batch.

(** X5. The verification loop of [Install] runs to its end exactly when
    every package of the batch is a valid triple. It then leaves one open
    handle on each package's archive, the one [verifyPkgContents] opened for
    its traversal and never closes. *)
Theorem verified_batch env root ms w :
  (fst (Install_loop env root ms w) = None ↔ ∀ m, m ∈ ms → valid env root m w)
  ∧ (fst (Install_loop env root ms w) = None →
     handles (snd (Install_loop env root ms w))
     = archive_handles env root ms ++ handles w).
Proof.
  split; [split|].
  - intros Hnil. by apply Install_loop_nil_inv.
  - apply valid_Install_loop.
  - intros Hnil. by apply Install_loop_nil_inv.
Qed.

Lemma verified_batch_witness :
  let w := Scenario.cached_world "foo-1.0" in
  handles (snd (Install_loop Scenario.env "root" [Scenario.meta "foo-1.0"] w))
  = [FileHandle "root/var/cache/pm/foo-1.0"].
Proof.
  intros w.
  destruct (verified_batch Scenario.env "root" [Scenario.meta "foo-1.0"] w)
    as [_ Hh].
  apply Hh. vm_compute. reflexivity.
Defined.

(** ** Entries the traversal passes over *)

(** X6. A directory entry, or an entry named like one of the two control
    files, is invisible to the traversal of [verifyPkgContents]: with or
    without it, anywhere on the tape, the result and the digests computed
    are the same. Its name need not be declared and its bytes are never
    hashed. *)
Theorem skipped_entries_invisible env pn cs pre h post last w :
  is_content h = false →
  verifyPkgContents_loop env pn cs (pre ++ h :: post) last w
  = verifyPkgContents_loop env pn cs (pre ++ post) last w.
Proof.
  intros Hskip. apply is_content_false in Hskip. revert w.
  induction pre as [|x pre IH]; intros w; simpl.
  - case_decide; [done|]. destruct (IsDir h); [done|].
    destruct Hskip; [done|discriminate].
  - case_decide; [apply IH|]. destruct (IsDir x); [apply IH|].
    destruct (cs !! Name x); [|done].
    unfold mbind, M_bind, emit; simpl.
    destruct (fail (content x)); [done|]. case_decide; [done|apply IH].
Qed.

Lemma skipped_entries_invisible_witness :
  verifyPkgContents_loop Scenario.env "pn" Scenario.foo_map
    [Scenario.file "bin/foo" "hi";
     Scenario.file "manifest.sha256" "forged";
     Scenario.file "bin/bar" "yo"] None Scenario.empty_world
  = verifyPkgContents_loop Scenario.env "pn" Scenario.foo_map
      [Scenario.file "bin/foo" "hi"; Scenario.file "bin/bar" "yo"]
      None Scenario.empty_world.
Proof.
  apply (skipped_entries_invisible Scenario.env "pn" Scenario.foo_map
           [Scenario.file "bin/foo" "hi"]
           (Scenario.file "manifest.sha256" "forged")
           [Scenario.file "bin/bar" "yo"] None Scenario.empty_world).
  vm_compute. reflexivity.
Defined.

(** ** Digests in hexadecimal *)

Lemma hex_digits_lower a :
  lower_hex (hex_digit (N_of_ascii a / 16)) = true
  ∧ lower_hex (hex_digit (N_of_ascii a mod 16)) = true.
Proof. destruct a as [[] [] [] [] [] [] [] []]; vm_compute; done. Qed.

Lemma unhex_hex_digits a :
  unhex (hex_digit (N_of_ascii a / 16)) (hex_digit (N_of_ascii a mod 16)) = a.
Proof. destruct a as [[] [] [] [] [] [] [] []]; vm_compute; done. Qed.

Lemma Sprintf_x_lower b : all_lower_hex (Sprintf_x b) = true.
Proof.
  induction b as [|a b IH]; [done|]. simpl.
  destruct (hex_digits_lower a) as [-> ->]. by rewrite IH.
Qed.

Lemma Sprintf_x_length b :
  String.length (Sprintf_x b) = (2 * String.length b)%nat.
Proof. induction b as [|a b IH]; [done|]. simpl. rewrite IH. lia. Qed.

Lemma Sprintf_x_inj a b : Sprintf_x a = Sprintf_x b → a = b.
Proof.
  revert b. induction a as [|x a IH]; intros [|y b]; simpl; try done.
  intros [= H1 H2 H3]. f_equal; [|by apply IH].
  rewrite <- (unhex_hex_digits x), <- (unhex_hex_digits y). by rewrite H1, H2.
Qed.

(** X7. A digest recorded in the manifest is compared as text with the
    lower-case hexadecimal print of the computed digest: a recorded digest
    with any byte outside [0-9a-f], an upper-case digit for one, or of
    another length than two digits per digest byte, never matches, and an
    archive with a content entry so declared is rejected. *)
Theorem digest_must_be_lower_hex env root m w t cs hdr sha :
  cached env root m w t →
  manifest_parses t cs →
  hdr ∈ entries t →
  is_content hdr = true →
  cs !! Name hdr = Some sha →
  all_lower_hex sha = false
  ∨ String.length sha
    ≠ (2 * String.length (sha256_Sum env (bytes (content hdr))))%nat →
  ¬ matches env cs hdr
  ∧ is_Some (fst (verifyPkgContents env root m w)).
Proof.
  intros Hc Hm Hin Hcont Hcs Hbad.
  assert (Hno : ¬ matches env cs hdr).
  { intros [Hm' _]. rewrite Hcs in Hm'. injection Hm' as ->.
    destruct Hbad as [Hbad|Hbad].
    - by rewrite Sprintf_x_lower in Hbad.
    - by rewrite Sprintf_x_length in Hbad. }
  split; [done|]. by eapply verifyPkgContents_rejects.
Qed.

Lemma digest_must_be_lower_hex_witness :
  is_Some (fst (verifyPkgContents More.env "root" (Scenario.meta "foo-upper")
                  (Scenario.cached_world "foo-upper"))).
Proof.
  apply (digest_must_be_lower_hex More.env "root" (Scenario.meta "foo-upper")
           (Scenario.cached_world "foo-upper") More.foo_upper
           {[ "bin/foo" := "686F" ]} (Scenario.file "bin/foo" "ho") "686F").
  - exists "foo-upper". split; vm_compute; reflexivity.
  - exists (Scenario.rd More.manifest_upper). repeat split; vm_compute; reflexivity.
  - apply (list_elem_of_lookup_2 _ 3%nat). reflexivity.
  - reflexivity.
  - vm_compute. reflexivity.
  - left. vm_compute. reflexivity.
Defined.

(** X8. Printing a digest in hexadecimal loses nothing: two digests print
    the same only when they are the same. So for an entry that can be read
    and is declared with the print of a digest [d], the comparison at line
    161 passes exactly when [d] is the SHA-256 of the entry's bytes. *)
Theorem digest_comparison_exact env cs hdr d :
  cs !! Name hdr = Some (Sprintf_x d) →
  fail (content hdr) = None →
  (∀ a b, Sprintf_x a = Sprintf_x b → a = b)
  ∧ (matches env cs hdr ↔ d = sha256_Sum env (bytes (content hdr))).
Proof.
  intros Hcs Hf. split; [apply Sprintf_x_inj|]. unfold matches. rewrite Hcs. split.
  - intros [[= H] _]. by apply Sprintf_x_inj.
  - intros ->. done.
Qed.

Lemma digest_comparison_exact_witness :
  matches Scenario.env Scenario.foo_map (Scenario.file "bin/foo" "hi").
Proof.
  apply (digest_comparison_exact Scenario.env Scenario.foo_map
           (Scenario.file "bin/foo" "hi") "hi").
  - vm_compute. reflexivity.
  - reflexivity.
  - reflexivity.
Defined.

(** ** Lines and fields *)

Lemma String_append_cons a s t : String a s +:+ t = String a (s +:+ t).
Proof. reflexivity. Qed.

Lemma occurrences_app c a b :
  occurrences c (a +:+ b) = (occurrences c a + occurrences c b)%nat.
Proof.
  induction a as [|x a IH]; [done|]. rewrite String_append_cons. simpl.
  destruct (Ascii.eqb x c); rewrite IH; lia.
Qed.

Lemma Split_length s sep : List.length (Split s sep) = S (occurrences sep s).
Proof.
  induction s as [|a s IH]; [done|]. simpl.
  destruct (Ascii.eqb a sep); simpl; [by rewrite IH|].
  destruct (Split s sep); simpl in *; done.
Qed.

Lemma Split_fields_clean s sep :
  Forall (λ x, occurrences sep x = 0%nat) (Split s sep).
Proof.
  induction s as [|a s IH]; simpl; [by repeat constructor|].
  destruct (Ascii.eqb a sep) eqn:Ha; [by constructor|].
  destruct (Split s sep) as [|x xs]; [by repeat constructor; simpl; rewrite Ha|].
  apply Forall_cons in IH as [Hx Hxs]. constructor; [|done].
  simpl. by rewrite Ha.
Qed.

Lemma Join_sep_Split s sep : Join_sep sep (Split s sep) = s.
Proof.
  induction s as [|a s IH]; [done|]. cbn [Split].
  destruct (Ascii.eqb_spec a sep) as [->|Hne];
    destruct (Split_cons s sep) as (x & xs & Hs); rewrite Hs in IH |- *.
  - change (Join_sep sep (EmptyString :: x :: xs))
      with (EmptyString +:+ String sep (Join_sep sep (x :: xs))).
    by rewrite IH.
  - destruct xs as [|y ys].
    + change (Join_sep sep [String a x]) with (String a x).
      change (Join_sep sep [x]) with x in IH. by rewrite IH.
    + change (Join_sep sep (String a x :: y :: ys))
        with (String a x +:+ String sep (Join_sep sep (y :: ys))).
      change (Join_sep sep (x :: y :: ys))
        with (x +:+ String sep (Join_sep sep (y :: ys))) in IH.
      rewrite String_append_cons. by rewrite IH.
Qed.

Lemma Split_clean s sep : occurrences sep s = 0%nat → Split s sep = [s].
Proof.
  induction s as [|a s IH]; [done|]. simpl.
  destruct (Ascii.eqb a sep); [done|]. intros H. by rewrite IH.
Qed.

Lemma Split_app_clean a b sep :
  occurrences sep a = 0%nat →
  Split (a +:+ String sep b) sep = a :: Split b sep.
Proof.
  induction a as [|x a IH]; simpl.
  - intros _. change (EmptyString +:+ String sep b) with (String sep b).
    simpl. by rewrite Ascii.eqb_refl.
  - rewrite ?String_append_cons. simpl.
    destruct (Ascii.eqb x sep); [done|]. intros H. by rewrite IH.
Qed.

(** X9. A manifest line is accepted exactly when it holds one tab. Its two
    fields are then what stands before and after that tab, either of which
    may be empty: [Split] gives two elements exactly for a line [e0 TAB e1]
    with tab-free [e0] and [e1], and any other line is a format error that
    reports one element more than the line has tabs. *)
Theorem manifest_line_fields l cs :
  (two_fields l ↔ occurrences tab l = 1%nat)
  ∧ (∀ e0 e1, Split l tab = [e0; e1]
              ↔ l = e0 +:+ String tab e1
                ∧ occurrences tab e0 = 0%nat ∧ occurrences tab e1 = 0%nat)
  ∧ (occurrences tab l ≠ 1%nat →
     parse_lines [l] cs = Err (FormatError (Z.of_nat (S (occurrences tab l))))).
Proof.
  split; [|split].
  - unfold two_fields. rewrite Split_length. lia.
  - intros e0 e1. split.
    + intros Hs. pose proof (Join_sep_Split l tab) as Hj.
      pose proof (Split_fields_clean l tab) as Hc. rewrite Hs in Hj, Hc.
      simpl in Hj. apply Forall_cons in Hc as [H0 Hc].
      apply Forall_cons in Hc as [H1 _]. done.
    + intros (-> & H0 & H1). rewrite Split_app_clean by done.
      by rewrite (Split_clean e1).
  - intros Hne. simpl. pose proof (Split_length l tab) as Hl.
    destruct (Split l tab) as [|e0 [|e1 [|e2 es]]]; simpl in Hl |- *;
      try (by rewrite Hl).
    exfalso. apply Hne. lia.
Qed.

Lemma manifest_line_fields_witness :
  parse_lines [String tab EmptyString] ∅ = Ok {[ EmptyString := EmptyString ]}
  ∧ parse_lines ["6869 bin/foo"] ∅ = Err (FormatError 1).
Proof.
  split.
  - destruct (manifest_line_fields (String tab EmptyString) ∅) as (_ & Hs & _).
    unfold parse_lines.
    rewrite (proj2 (Hs EmptyString EmptyString)); [reflexivity|].
    repeat split; reflexivity.
  - destruct (manifest_line_fields "6869 bin/foo" ∅) as (_ & _ & He).
    rewrite He; [reflexivity|]. vm_compute. intros H. discriminate H.
Defined.

(** ** Writing a manifest out and reading it back *)

Lemma length_app (a b : string) :
  String.length (a +:+ b) = (String.length a + String.length b)%nat.
Proof.
  induction a as [|x a IH]; [done|].
  change (S (String.length (a +:+ b)) = S (String.length a + String.length b)%nat).
  by rewrite IH.
Qed.

Lemma len_app a b : len (a +:+ b) = len a + len b.
Proof. unfold len. rewrite length_app. lia. Qed.

Lemma raw_lines_line l rest cur :
  occurrences lf l = 0%nat →
  raw_lines (l +:+ String lf rest) cur
  = (cur +:+ l) :: raw_lines rest EmptyString.
Proof.
  revert cur. induction l as [|x l IH]; intros cur.
  - intros _. change (EmptyString +:+ String lf rest) with (String lf rest).
    simpl. by rewrite append_empty_r.
  - rewrite String_append_cons. simpl. destruct (Ascii.eqb x lf); [done|].
    intros Hl. rewrite IH by done. by rewrite append_snoc.
Qed.

Lemma dropCR_plain l : occurrences cr l = 0%nat → dropCR l = l.
Proof.
  induction l as [|x l IH]; [done|]. simpl.
  destruct (Ascii.eqb x cr) eqn:Hx; [done|]. intros Hl.
  destruct l as [|y l]; [done|]. by rewrite IH.
Qed.

Lemma dropCR_snoc l : dropCR (l +:+ String cr EmptyString) = l.
Proof.
  induction l as [|x l IH]; [done|].
  destruct l as [|y l]; [done|].
  change (String x (dropCR (String y (l +:+ String cr EmptyString)))
          = String x (String y l)).
  change (dropCR (String y (l +:+ String cr EmptyString)) = String y l) in IH.
  by rewrite IH.
Qed.

Lemma manifest_line_Split e :
  occurrences tab (fst e) = 0%nat → occurrences tab (snd e) = 0%nat →
  Split (manifest_line e) tab = [fst e; snd e].
Proof.
  intros H0 H1. unfold manifest_line. rewrite Split_app_clean by done.
  by rewrite Split_clean.
Qed.

Lemma manifest_line_occurrences c e :
  c ≠ tab →
  occurrences c (manifest_line e)
  = (occurrences c (fst e) + occurrences c (snd e))%nat.
Proof.
  intros Hc. unfold manifest_line. rewrite occurrences_app.
  change (occurrences c (String tab (snd e)))
    with (if Ascii.eqb tab c then S (occurrences c (snd e))
          else occurrences c (snd e)).
  destruct (Ascii.eqb_spec tab c) as [Heq|_]; [by destruct Hc|done].
Qed.

(** What the loop at lines 118-124 builds from well-formed lines. *)
Lemma parse_lines_foldl es cs :
  Forall (λ e, occurrences tab (fst e) = 0%nat
               ∧ occurrences tab (snd e) = 0%nat) es →
  parse_lines (manifest_line <$> es) cs
  = Ok (foldl (λ cs e, <[snd e := fst e]> cs) cs es).
Proof.
  intros Hall. revert cs. induction Hall as [|e es [H0 H1] _ IH]; intros cs;
    [done|].
  simpl. rewrite manifest_line_Split by done. apply IH.
Qed.

Lemma foldl_insert_notin (es : list (string * string)) (cs : gmap string string) p :
  p ∉ (snd <$> es) →
  foldl (λ cs e, <[snd e := fst e]> cs) cs es !! p = cs !! p.
Proof.
  revert cs. induction es as [|e es IH]; intros cs Hp; [done|].
  simpl. rewrite IH.
  - apply lookup_insert_ne. intros Heq. apply Hp. rewrite <- Heq.
    apply elem_of_cons. by left.
  - intros Hin. apply Hp. apply elem_of_cons. by right.
Qed.

Lemma foldl_insert_in (es : list (string * string)) (cs : gmap string string) d p :
  NoDup (snd <$> es) → (d, p) ∈ es →
  foldl (λ cs e, <[snd e := fst e]> cs) cs es !! p = Some d.
Proof.
  revert cs. induction es as [|e es IH]; intros cs Hnd Hin;
    [by apply elem_of_nil in Hin|].
  simpl in Hnd. apply NoDup_cons in Hnd as [Hne Hnd].
  apply elem_of_cons in Hin as [<-|Hin]; simpl.
  - rewrite foldl_insert_notin by done. apply lookup_insert_eq.
  - by apply IH.
Qed.

Lemma raw_lines_transcript (crlf : bool) es :
  Forall (λ e, occurrences lf (manifest_line e) = 0%nat) es →
  raw_lines (transcript (if crlf then String cr (String lf EmptyString)
                         else String lf EmptyString) es) EmptyString
  = (λ e, manifest_line e +:+ (if crlf then String cr EmptyString
                               else EmptyString)) <$> es.
Proof.
  induction 1 as [|e es He _ IH]; [done|].
  cbn [transcript fmap list_fmap]. destruct crlf.
  - change (manifest_line e +:+ String cr (String lf EmptyString)
            +:+ transcript (String cr (String lf EmptyString)) es)
      with (manifest_line e
            +:+ String cr (String lf (transcript (String cr (String lf EmptyString)) es))).
    rewrite <- append_snoc. rewrite raw_lines_line.
    + by rewrite IH.
    + rewrite occurrences_app, He. done.
  - change (manifest_line e +:+ String lf EmptyString
            +:+ transcript (String lf EmptyString) es)
      with (manifest_line e
            +:+ String lf (transcript (String lf EmptyString) es)).
    rewrite raw_lines_line by done. rewrite IH. by rewrite append_empty_r.
Qed.

(** X10. Round trip. A set of (digest, path) pairs with distinct paths,
    written out one pair per line as [<digest> TAB <path>] with either a
    newline or a carriage return and newline after each line, is read back
    by the scanner and the manifest loop as exactly that mapping from path
    to digest, provided the fields hold no tab, newline or carriage return
    and each line fits the scanner's buffer. *)
Theorem manifest_round_trip (crlf : bool) es :
  let eol := if crlf then String cr (String lf EmptyString)
             else String lf EmptyString in
  Forall (λ e, plain (fst e) ∧ plain (snd e)
               ∧ len (manifest_line e) + 1 < MaxScanTokenSize) es →
  NoDup (snd <$> es) →
  Scanner {| bytes := transcript eol es; fail := None |}
  = (manifest_line <$> es, None)
  ∧ parse_lines (manifest_line <$> es) ∅
    = Ok (list_to_map ((λ e, (snd e, fst e)) <$> es)).
Proof.
  intros eol Hall Hnd. split.
  - unfold Scanner. cbn [bytes fail]. unfold eol.
    rewrite raw_lines_transcript.
    2:{ eapply Forall_impl; [exact Hall|]. intros e ((_ & H0 & _) & (_ & H1 & _) & _).
        rewrite manifest_line_occurrences by done. by rewrite H0, H1. }
    rewrite scan_tokens_short.
    2:{ apply Forall_fmap. eapply Forall_impl; [exact Hall|].
        intros e (_ & _ & Hlen). simpl. rewrite len_app.
        destruct crlf; unfold len in *; simpl; lia. }
    f_equal. rewrite <- list_fmap_compose. apply Forall_fmap_ext.
    eapply Forall_impl; [exact Hall|].
    intros e ((_ & _ & H0) & (_ & _ & H1) & _). simpl. destruct crlf.
    + apply dropCR_snoc.
    + rewrite append_empty_r. apply dropCR_plain.
      rewrite manifest_line_occurrences by done. by rewrite H0, H1.
  - rewrite parse_lines_foldl.
    2:{ eapply Forall_impl; [exact Hall|]. by intros e ((H0 & _) & (H1 & _) & _). }
    f_equal. apply map_eq. intros p.
    destruct (decide (p ∈ snd <$> es)) as [Hin|Hnin].
    + apply list_elem_of_fmap in Hin as ([d p'] & -> & Hin). simpl.
      rewrite (foldl_insert_in es ∅ d p') by done. symmetry.
      apply elem_of_list_to_map_1.
      * by rewrite <- list_fmap_compose.
      * apply list_elem_of_fmap. by exists (d, p').
    + rewrite foldl_insert_notin by done. rewrite lookup_empty. symmetry.
      apply not_elem_of_list_to_map_1. by rewrite <- list_fmap_compose.
Qed.

Lemma manifest_round_trip_witness :
  Scanner {| bytes := "6869" +:+ String tab "bin/foo"
                      +:+ String cr (String lf EmptyString)
                      +:+ "796f" +:+ String tab "bin/bar"
                      +:+ String cr (String lf EmptyString);
             fail := None |}
  = (["6869" +:+ String tab "bin/foo"; "796f" +:+ String tab "bin/bar"], None)
  ∧ parse_lines ["6869" +:+ String tab "bin/foo"; "796f" +:+ String tab "bin/bar"] ∅
    = Ok (list_to_map [("bin/foo", "6869"); ("bin/bar", "796f")]).
Proof.
  apply (manifest_round_trip true [("6869", "bin/foo"); ("796f", "bin/bar")]).
  - repeat (apply List.Forall_cons;
            [repeat split; vm_compute; reflexivity|]).
    apply List.Forall_nil.
  - apply (bool_decide_unpack _). vm_compute. reflexivity.
Defined.

(** ** What a successful fetch leaves behind *)

Section Fetched.
Context (env : Env).

(** One turn of [download] that does not return: the body went to the cache
    file, the body was closed, the file was not. *)
Lemma download_step cacheDir m ms w :
  let fn := filepath_Join env cacheDir (Pkg m) in
  is_Some (fst (download env cacheDir (m :: ms) w))
  ∨ ∃ resp w1,
      http_Get env (URL m) = Ok resp
      ∧ fail (Body resp) = None
      ∧ nodes w !! fn ≠ Some Dir
      ∧ download env cacheDir (m :: ms) w = download env cacheDir ms w1
      ∧ nodes w1 = <[fn := File (bytes (Body resp))]> (nodes w)
      ∧ handles w1 = FileHandle fn :: handles w.
Proof.
  intros fn. simpl. unfold mbind, M_bind, emit. simpl.
  destruct (http_Get env (URL m)) as [resp|err]; [|left; by eexists].
  unfold os_Create, mbind, M_bind, emit, stat, acquire, put. simpl. fold fn.
  destruct (nodes w !! fn) as [[|data]|] eqn:Hn; [left; by eexists|..];
    (destruct (os_Create_err env fn); [left; by eexists|];
     unfold io_Copy, Body_Close, mbind, M_bind, emit, release, put; simpl;
     destruct (decide (bytes (Body resp) = EmptyString)) as [Hb|Hb];
     [|destruct (write_err env fn); [left; by eexists|]]; simpl;
     (destruct (fail (Body resp)) eqn:Hf; [left; by eexists|]); simpl;
     (destruct (Body_Close_err resp); [left; by eexists|]); simpl;
     right; eexists resp, _; (split; [done|]); (split; [done|]);
     (split; [done|]); (split; [reflexivity|]); simpl;
     rewrite ?decide_True by done; (split; [|done])).
  - by rewrite Hb.
  - by rewrite insert_insert_eq.
  - by rewrite Hb.
  - by rewrite insert_insert_eq.
Qed.

Lemma download_nil_inv cacheDir ms w :
  fst (download env cacheDir ms w) = None →
  handles (snd (download env cacheDir ms w))
  = cache_handles env cacheDir ms ++ handles w
  ∧ (∀ p, (∀ m, m ∈ ms → p ≠ filepath_Join env cacheDir (Pkg m)) →
          nodes (snd (download env cacheDir ms w)) !! p = nodes w !! p)
  ∧ (NoDup ((λ m, filepath_Join env cacheDir (Pkg m)) <$> ms) →
     ∀ m, m ∈ ms →
          ∃ resp, http_Get env (URL m) = Ok resp
                  ∧ fail (Body resp) = None
                  ∧ nodes (snd (download env cacheDir ms w))
                      !! filepath_Join env cacheDir (Pkg m)
                    = Some (File (bytes (Body resp)))).
Proof.
  revert w. induction ms as [|m ms IH]; intros w Hnil.
  { split; [done|]. split; [done|]. intros _ m Hm. by apply elem_of_nil in Hm. }
  destruct (download_step cacheDir m ms w)
    as [[e He]|(resp & w1 & Hget & Hfail & _ & Heq & Hn1 & Hh1)].
  { rewrite Hnil in He. discriminate He. }
  rewrite Heq in Hnil |- *. destruct (IH w1 Hnil) as (Hh & Hframe & Hfiles).
  split; [|split].
  - rewrite Hh, Hh1. unfold cache_handles. simpl. by rewrite <- app_assoc.
  - intros p Hp. rewrite Hframe.
    + rewrite Hn1. apply lookup_insert_ne. apply not_eq_sym, Hp.
      apply elem_of_cons. by left.
    + intros m' Hm'. apply Hp. apply elem_of_cons. by right.
  - intros Hnd m' Hm'. simpl in Hnd. apply NoDup_cons in Hnd as [Hnotin Hnd].
    apply elem_of_cons in Hm' as [->|Hm'].
    + exists resp. split; [done|]. split; [done|]. rewrite Hframe.
      * rewrite Hn1. apply lookup_insert_eq.
      * intros m' Hm' Heq'. apply Hnotin. rewrite Heq'.
        apply list_elem_of_fmap. by exists m'.
    + by apply Hfiles.
Qed.

End Fetched.

(** X11. When [download] returns nil, every package was answered, each
    body was read to its end and closed, and (the cache files being
    distinct) each cache file holds exactly the bytes of its package's
    response body, whatever it held before; paths other than the cache
    files are untouched. The files that [os.Create] opened are never closed:
    one handle per package stays open. *)
Theorem download_success env cacheDir ms w :
  fst (download env cacheDir ms w) = None →
  handles (snd (download env cacheDir ms w))
  = cache_handles env cacheDir ms ++ handles w
  ∧ (∀ p, (∀ m, m ∈ ms → p ≠ filepath_Join env cacheDir (Pkg m)) →
          nodes (snd (download env cacheDir ms w)) !! p = nodes w !! p)
  ∧ (NoDup ((λ m, filepath_Join env cacheDir (Pkg m)) <$> ms) →
     ∀ m, m ∈ ms →
          ∃ resp, http_Get env (URL m) = Ok resp
                  ∧ fail (Body resp) = None
                  ∧ nodes (snd (download env cacheDir ms w))
                      !! filepath_Join env cacheDir (Pkg m)
                    = Some (File (bytes (Body resp)))).
Proof. apply download_nil_inv. Qed.

Lemma download_success_witness :
  let r := download Scenario.env "c"
             [Scenario.meta "foo-1.0"; Scenario.meta "foo-extra"]
             (Scenario.cached_world "foo-1.0") in
  handles (snd r) = [FileHandle "c/foo-extra"; FileHandle "c/foo-1.0"]
  ∧ nodes (snd r) !! "root/var/cache/pm/foo-1.0" = Some (File "foo-1.0").
Proof.
  intros r.
  destruct (download_success Scenario.env "c"
              [Scenario.meta "foo-1.0"; Scenario.meta "foo-extra"]
              (Scenario.cached_world "foo-1.0")) as (Hh & Hframe & _).
  - vm_compute. reflexivity.
  - split; [exact Hh|]. unfold r.
    rewrite (Hframe "root/var/cache/pm/foo-1.0"); [reflexivity|].
    intros m Hm.
    apply elem_of_cons in Hm as [->|Hm].
    + vm_compute. intros H. discriminate H.
    + apply list_elem_of_singleton in Hm. subst m.
      vm_compute. intros H. discriminate H.
Defined.

(** ** The stages of Install *)

Section Stages.
Context (env : Env).

(** [Install], stage by stage. *)
Lemma Install_run root pkgs w :
  let cacheDir := filepath_Join env root cache in
  match db_LoadAvailable env root with
  | Err err =>
      Install env root pkgs w = (Some (Wrap err "loading available db"), w)
  | Ok av =>
      match av pkgs with
      | Err err =>
          Install env root pkgs w
          = (Some (Wrap err "checking ability to install"), w)
      | Ok ms =>
          match nodes w !! cacheDir with
          | Some (File _) =>
              Install env root pkgs w
              = (Some (Errorf "%q is not a directory!" [ArgS cacheDir]), w)
          | Some Dir =>
              Install env root pkgs w = fetch_and_verify env root ms w
          | None =>
              match os_MkdirAll_err env cacheDir with
              | Some err =>
                  Install env root pkgs w
                  = (Some (Wrap err "creating non-existent cache dir"),
                     advance w (handles w) [EvMkdirAll cacheDir])
              | None =>
                  Install env root pkgs w
                  = fetch_and_verify env root ms
                      {| nodes := <[cacheDir := Dir]> (nodes w);
                         handles := handles w;
                         trace := trace w ++ [EvMkdirAll cacheDir] |}
              end
          end
      end
  end.
Proof.
  intros cacheDir. unfold Install, fetch_and_verify. fold cacheDir.
  destruct (db_LoadAvailable env root) as [av|err]; [|done].
  destruct (av pkgs) as [ms|err]; [|done].
  unfold os_MkdirAll, emit, put. unfold mbind, M_bind, stat, mret, M_ret.
  destruct (nodes w !! cacheDir) as [[|data]|] eqn:Hn.
  - rewrite Hn.
    destruct (download env cacheDir ms w) as [[err|] w2]; [done|].
    by destruct (Install_loop env root ms w2) as [[err|] w3].
  - by rewrite Hn.
  - destruct (os_MkdirAll_err env cacheDir) as [err|]; [done|].
    cbn beta iota zeta. cbn [nodes handles trace]. rewrite lookup_insert_eq.
    match goal with
    | |- context [download env cacheDir ms ?w1] =>
        destruct (download env cacheDir ms w1) as [[err|] w2]; [done|]
    end.
    by destruct (Install_loop env root ms w2) as [[err|] w3].
Qed.

(** The errors of the verification loop are wrapped with the name of the
    stage. *)
Lemma Install_loop_err root ms w e :
  fst (Install_loop env root ms w) = Some e →
  ∃ c, e = Wrap c "verifying pkg integrity" ∨ e = Wrap c "verifying pkg contents".
Proof.
  revert w. induction ms as [|m ms IH]; intros w; [intros H; discriminate H|].
  destruct (Install_loop_cons env root m ms w)
    as [(_ & err & hs & e1 & -> & _)|(_ & hs & e1 & e2 & _ & _ & _ & [[err ->]| ->])].
  - intros [= <-]. exists err. by left.
  - intros [= <-]. exists err. by right.
  - apply IH.
Qed.

Lemma fetched_sha pn names : fetched (EvSha256 pn <$> names) = [].
Proof. by induction names. Qed.

(** Verification requests nothing from the network. *)
Lemma Install_loop_nofetch root ms w :
  ∃ evs, trace (snd (Install_loop env root ms w)) = trace w ++ evs
         ∧ fetched evs = [].
Proof.
  revert w. induction ms as [|m ms IH]; intros w.
  { exists []. simpl. by rewrite app_nil_r. }
  simpl. unfold mbind, M_bind, emit. simpl.
  set (w0 := {| nodes := nodes w; handles := handles w;
                trace := trace w ++ [EvLog m] |}).
  assert (H1 : ∃ hs e1, snd (verifyManifestIntegrity env root m w0)
                        = advance w0 hs e1 ∧ fetched e1 = []).
  { destruct (nodes w0 !! Join3 env root cache (Pkg m)) as [nd|] eqn:Hn.
    - rewrite (verifyManifestIntegrity_eq env root m w0 nd Hn).
      repeat case_match; by eexists _, _.
    - rewrite (verifyManifestIntegrity_absent env root m w0 Hn). by eexists _, _. }
  destruct H1 as (hs1 & e1 & Hs1 & Hf1).
  destruct (verifyManifestIntegrity env root m w0) as [[err|] w1];
    simpl in Hs1; subst w1.
  { exists (EvLog m :: e1). simpl. rewrite <- app_assoc. done. }
  set (w1 := advance w0 hs1 e1).
  assert (H2 : ∃ hs e2, snd (verifyPkgContents env root m w1)
                        = advance w1 hs e2 ∧ fetched e2 = []).
  { destruct (nodes w1 !! Join3 env root cache (Pkg m)) as [nd|] eqn:Hn.
    - rewrite (verifyPkgContents_eq env root m w1 nd Hn).
      repeat case_match; try by eexists _, _.
      match goal with
      | |- context [verifyPkgContents_loop env ?pn ?cs ?es ?l ?w'] =>
          destruct (verifyPkgContents_loop_effect env pn cs es l w') as [names ->]
      end.
      rewrite advance_advance. eexists _, _. split; [done|].
      rewrite fetched_app, fetched_sha. done.
    - rewrite (verifyPkgContents_absent env root m w1 Hn). by eexists _, _. }
  destruct H2 as (hs2 & e2 & Hs2 & Hf2).
  destruct (verifyPkgContents env root m w1) as [[err|] w2];
    simpl in Hs2; subst w2.
  { exists (EvLog m :: e1 ++ e2). simpl. rewrite <- !app_assoc.
    split; [done|]. by rewrite fetched_app, Hf1, Hf2. }
  destruct (IH (advance w1 hs2 e2)) as (evs & Ht & Hf).
  exists (EvLog m :: e1 ++ e2 ++ evs). split.
  - rewrite Ht. simpl. by rewrite <- !app_assoc.
  - simpl. by rewrite !fetched_app, Hf1, Hf2, Hf.
Qed.

End Stages.

Section StagesFetch.
Context (env : Env).

(** The fetcher opens no archive, asks no key ring and computes no
    digest. *)
Lemma download_noverif cacheDir ms w :
  ∃ evs, trace (snd (download env cacheDir ms w)) = trace w ++ evs
         ∧ Forall (λ e, is_verification e = false) evs.
Proof.
  revert w. induction ms as [|m ms IH]; intros w.
  { exists []. simpl. by rewrite app_nil_r. }
  simpl. unfold mbind, M_bind, emit. simpl.
  destruct (http_Get env (URL m)) as [resp|err]; [|fetch_ends].
  unfold os_Create, mbind, M_bind, emit, stat, acquire, put. simpl.
  destruct (nodes w !! filepath_Join env cacheDir (Pkg m)) as [[|data]|];
    [fetch_ends|..];
    (destruct (os_Create_err env _); [fetch_ends|];
     unfold io_Copy, Body_Close, mbind, M_bind, emit, release, put; simpl;
     destruct (decide (bytes (Body resp) = EmptyString));
     [|destruct (write_err env _); [fetch_ends|]]; simpl;
     (destruct (fail (Body resp)); [fetch_ends|]); simpl;
     (destruct (Body_Close_err resp); [fetch_ends|]); simpl;
     match goal with
     | |- context [download env cacheDir ms ?w1] =>
         destruct (IH w1) as (evs & Ht & Hf)
     end;
     exists ([EvHttpGet (URL m); EvCreate (filepath_Join env cacheDir (Pkg m));
              EvClose (BodyHandle (URL m))] ++ evs);
     (split; [rewrite Ht; simpl; by rewrite <- !app_assoc|]);
     by repeat constructor).
Qed.

(** The fetcher never replaces a directory. *)
Lemma download_keeps_dirs cacheDir ms w p :
  nodes w !! p = Some Dir →
  nodes (snd (download env cacheDir ms w)) !! p = Some Dir.
Proof.
  revert w. induction ms as [|m ms IH]; intros w Hp; [done|].
  simpl. unfold mbind, M_bind, emit. simpl.
  destruct (http_Get env (URL m)) as [resp|err]; [|done].
  unfold os_Create, mbind, M_bind, emit, stat, acquire, put. simpl.
  destruct (nodes w !! filepath_Join env cacheDir (Pkg m)) as [[|data]|] eqn:Hn;
    [done|..];
    (assert (Hne : filepath_Join env cacheDir (Pkg m) ≠ p)
       by (intros Heq; rewrite Heq, Hp in Hn; discriminate Hn);
     destruct (os_Create_err env _); [done|];
     unfold io_Copy, Body_Close, mbind, M_bind, emit, release, put; simpl;
     destruct (decide (bytes (Body resp) = EmptyString));
     [|destruct (write_err env _)]; simpl;
     try (destruct (fail (Body resp)); simpl);
     try (destruct (Body_Close_err resp); simpl);
     try apply IH; simpl;
     rewrite ?lookup_insert_ne by done; done).
Qed.

Lemma download_app cacheDir ms1 ms2 w :
  download env cacheDir (ms1 ++ ms2) w
  = match download env cacheDir ms1 w with
    | (Some err, w1) => (Some err, w1)
    | (None, w1) => download env cacheDir ms2 w1
    end.
Proof.
  revert w. induction ms1 as [|m ms1 IH]; intros w; [done|].
  simpl. unfold mbind, M_bind, emit. simpl.
  destruct (http_Get env (URL m)) as [resp|err]; [|done].
  unfold os_Create, mbind, M_bind, emit, stat, acquire, put. simpl.
  destruct (nodes w !! filepath_Join env cacheDir (Pkg m)) as [[|data]|];
    [done|..];
    (destruct (os_Create_err env _); [done|];
     unfold io_Copy, Body_Close, mbind, M_bind, emit, release, put; simpl;
     destruct (decide (bytes (Body resp) = EmptyString));
     [|destruct (write_err env _)]; simpl;
     try (destruct (fail (Body resp)); simpl);
     try (destruct (Body_Close_err resp); simpl);
     try apply IH; done).
Qed.

Lemma Install_loop_app root ms1 ms2 w :
  Install_loop env root (ms1 ++ ms2) w
  = match Install_loop env root ms1 w with
    | (Some err, w1) => (Some err, w1)
    | (None, w1) => Install_loop env root ms2 w1
    end.
Proof.
  revert w. induction ms1 as [|m ms1 IH]; intros w; [done|].
  simpl. unfold mbind, M_bind, emit. simpl.
  destruct (verifyManifestIntegrity env root m _) as [[err|] w1]; [done|].
  destruct (verifyPkgContents env root m w1) as [[err|] w2]; [done|].
  apply IH.
Qed.

End StagesFetch.

(** X12. [Install] returns the error [NYI] only at the end of a run in which
    the requested names resolved and every resolved package is, in the
    state the run leaves, a valid triple: fetched into the cache, trusted by
    the key ring and with every content entry matching its manifest. *)
Theorem NYI_only_after_verification env root pkgs w :
  fst (Install env root pkgs w) = Some (New "NYI") →
  ∃ av ms, db_LoadAvailable env root = Ok av
           ∧ av pkgs = Ok ms
           ∧ ∀ m, m ∈ ms → valid env root m (snd (Install env root pkgs w)).
Proof.
  pose proof (Install_run env root pkgs w) as Hrun. cbv zeta in Hrun.
  destruct (db_LoadAvailable env root) as [av|err] eqn:Hav;
    [|rewrite Hrun; intros H; discriminate H].
  destruct (av pkgs) as [ms|err] eqn:Hms;
    [|rewrite Hrun; intros H; discriminate H].
  assert (Hfv : ∀ w1, fst (fetch_and_verify env root ms w1) = Some (New "NYI") →
            ∀ m, m ∈ ms → valid env root m (snd (fetch_and_verify env root ms w1))).
  { intros w1. unfold fetch_and_verify.
    destruct (download env _ ms w1) as [[err|] w2]; [intros H; discriminate H|].
    pose proof (Install_loop_nil_inv env root ms w2) as Hinv.
    pose proof (Install_loop_err env root ms w2) as Herr.
    pose proof (Install_loop_nodes env root ms w2) as Hn.
    destruct (Install_loop env root ms w2) as [[err|] w3]; simpl in *.
    - intros [= ->]. destruct (Herr _ eq_refl) as [c [H|H]]; discriminate H.
    - intros _ m Hm. apply (valid_nodes env root m w2 w3 Hn).
      by apply (proj1 (Hinv eq_refl)). }
  intros Hnyi. exists av, ms. split; [done|]. split; [done|].
  destruct (nodes w !! filepath_Join env root cache) as [[|data]|].
  - rewrite Hrun in Hnyi |- *. by apply Hfv.
  - rewrite Hrun in Hnyi. discriminate Hnyi.
  - destruct (os_MkdirAll_err env _).
    + rewrite Hrun in Hnyi. discriminate Hnyi.
    + rewrite Hrun in Hnyi |- *. by apply Hfv.
Qed.

Lemma NYI_only_after_verification_witness :
  ∃ av ms, db_LoadAvailable Scenario.env "root" = Ok av
           ∧ av ["foo-1.0"] = Ok ms
           ∧ ∀ m, m ∈ ms →
                  valid Scenario.env "root" m
                    (snd (Install Scenario.env "root" ["foo-1.0"]
                            Scenario.empty_world)).
Proof.
  apply (NYI_only_after_verification Scenario.env "root" ["foo-1.0"]
           Scenario.empty_world).
  vm_compute. reflexivity.
Defined.

(** X13. In every run of [Install] the trace splits in two: a first part,
    the cache set-up and the fetches, in which no archive is opened, no key
    ring asked and no digest computed, and a second part, verification, in
    which nothing is requested from the network. So no package is verified
    before every package is fetched; and when the fetch fails the second
    part is empty: no package reaches verification. *)
Theorem fetch_precedes_verification env root pkgs w :
  ∃ a b,
    trace (snd (Install env root pkgs w)) = trace w ++ a ++ b
    ∧ Forall (λ e, is_verification e = false) a
    ∧ fetched b = []
    ∧ (∀ err, fst (Install env root pkgs w) = Some (Wrap err "downloading") →
              b = []).
Proof.
  pose proof (Install_run env root pkgs w) as Hrun. cbv zeta in Hrun.
  assert (Hstop : ∀ e a, Install env root pkgs w = (Some e, advance w (handles w) a) →
            Forall (λ e, is_verification e = false) a →
            ∃ a b, trace (snd (Install env root pkgs w)) = trace w ++ a ++ b
                   ∧ Forall (λ e, is_verification e = false) a
                   ∧ fetched b = []
                   ∧ (∀ err, fst (Install env root pkgs w)
                             = Some (Wrap err "downloading") → b = [])).
  { intros e a -> Ha. exists a, []. rewrite app_nil_r. done. }
  assert (Hfv : ∀ ms w1 pre,
            Install env root pkgs w = fetch_and_verify env root ms w1 →
            trace w1 = trace w ++ pre →
            Forall (λ e, is_verification e = false) pre →
            ∃ a b, trace (snd (Install env root pkgs w)) = trace w ++ a ++ b
                   ∧ Forall (λ e, is_verification e = false) a
                   ∧ fetched b = []
                   ∧ (∀ err, fst (Install env root pkgs w)
                             = Some (Wrap err "downloading") → b = [])).
  { intros ms w1 pre -> Hw1 Hpre. unfold fetch_and_verify.
    destruct (download_noverif env (filepath_Join env root cache) ms w1)
      as (dl & Hdl & Hnv).
    destruct (download env _ ms w1) as [[err|] w2]; simpl in Hdl.
    { exists (pre ++ dl), []. simpl. rewrite app_nil_r, Hdl, Hw1, app_assoc.
      split; [done|]. split; [by apply Forall_app|]. done. }
    destruct (Install_loop_nofetch env root ms w2) as (lp & Hlp & Hnf).
    pose proof (Install_loop_err env root ms w2) as Herr.
    destruct (Install_loop env root ms w2) as [[err|] w3]; simpl in *;
      exists (pre ++ dl), lp;
      (split; [by rewrite Hlp, Hdl, Hw1, !app_assoc|]);
      (split; [by apply Forall_app|]); (split; [done|]).
    - intros err' [= ->]. destruct (Herr _ eq_refl) as [c [H|H]]; discriminate H.
    - intros err' H. discriminate H. }
  destruct (db_LoadAvailable env root) as [av|err].
  2:{ apply (Hstop _ [] ltac:(by rewrite advance_id)). done. }
  destruct (av pkgs) as [ms|err].
  2:{ apply (Hstop _ [] ltac:(by rewrite advance_id)). done. }
  destruct (nodes w !! filepath_Join env root cache) as [[|data]|].
  - apply (Hfv ms w [] Hrun); [by rewrite app_nil_r|done].
  - apply (Hstop _ [] ltac:(by rewrite advance_id)). done.
  - destruct (os_MkdirAll_err env _).
    + apply (Hstop _ _ Hrun). by repeat constructor.
    + apply (Hfv ms _ [EvMkdirAll (filepath_Join env root cache)] Hrun);
        [done|]. by repeat constructor.
Qed.

Lemma fetch_precedes_verification_witness :
  let r := Install Scenario.env "root" ["foo-1.0"; "unreachable"]
             Scenario.empty_world in
  fst r = Some (Wrap (Wrap (External "dial tcp: connection refused") "http get")
                  "downloading")
  ∧ ∃ a, trace (snd r) = a ∧ Forall (λ e, is_verification e = false) a.
Proof.
  intros r.
  destruct (fetch_precedes_verification Scenario.env "root"
              ["foo-1.0"; "unreachable"] Scenario.empty_world)
    as (a & b & Ht & Ha & _ & Hb).
  assert (Hr : fst r = Some (Wrap (Wrap (External "dial tcp: connection refused")
                                      "http get") "downloading"))
    by (vm_compute; reflexivity).
  split; [exact Hr|]. exists a. split; [|exact Ha].
  unfold r. rewrite Ht. rewrite (Hb _ Hr). simpl. by rewrite app_nil_r.
Defined.

(** X14. The cache directory. When the cache path is taken by a regular
    file, [Install] gives up with the not-a-directory error before creating,
    fetching or opening anything. And in every run in which something was
    requested from the network, the cache path is a directory when the run
    ends: [Install] fetches only into a directory, which it creates when it
    is missing, and the fetcher never replaces a directory by a file. *)
Theorem cache_directory env root pkgs w :
  let cacheDir := filepath_Join env root cache in
  (∀ av ms data,
     db_LoadAvailable env root = Ok av → av pkgs = Ok ms →
     nodes w !! cacheDir = Some (File data) →
     Install env root pkgs w
     = (Some (Errorf "%q is not a directory!" [ArgS cacheDir]), w))
  ∧ ∃ evs, trace (snd (Install env root pkgs w)) = trace w ++ evs
           ∧ (fetched evs ≠ [] →
              nodes (snd (Install env root pkgs w)) !! cacheDir = Some Dir).
Proof.
  intros cacheDir.
  pose proof (Install_run env root pkgs w) as Hrun. cbv zeta in Hrun.
  fold cacheDir in Hrun. split.
  - intros av ms data Hav Hms Hn. by rewrite Hav, Hms, Hn in Hrun.
  - assert (Hfv : ∀ ms w1 pre,
              Install env root pkgs w = fetch_and_verify env root ms w1 →
              trace w1 = trace w ++ pre →
              nodes w1 !! cacheDir = Some Dir →
              ∃ evs, trace (snd (Install env root pkgs w)) = trace w ++ evs
                     ∧ (fetched evs ≠ [] →
                        nodes (snd (Install env root pkgs w)) !! cacheDir
                        = Some Dir)).
    { intros ms w1 pre -> Hw1 Hdir. unfold fetch_and_verify. fold cacheDir.
      pose proof (download_keeps_dirs env cacheDir ms w1 cacheDir Hdir) as Hk.
      destruct (download_noverif env cacheDir ms w1) as (dl & Hdl & _).
      destruct (download env cacheDir ms w1) as [[err|] w2]; simpl in Hdl, Hk.
      { exists (pre ++ dl). simpl. split; [by rewrite Hdl, Hw1, app_assoc|done]. }
      destruct (Install_loop_nofetch env root ms w2) as (lp & Hlp & _).
      pose proof (Install_loop_nodes env root ms w2) as Hn.
      destruct (Install_loop env root ms w2) as [[err|] w3]; simpl in *;
        exists (pre ++ dl ++ lp);
        (split; [by rewrite Hlp, Hdl, Hw1, !app_assoc|]);
        intros _; by rewrite Hn. }
    destruct (db_LoadAvailable env root) as [av|err].
    2:{ rewrite Hrun. exists []. simpl. by rewrite app_nil_r. }
    destruct (av pkgs) as [ms|err].
    2:{ rewrite Hrun. exists []. simpl. by rewrite app_nil_r. }
    destruct (nodes w !! cacheDir) as [[|data]|] eqn:Hn.
    + apply (Hfv ms w []); [done|by rewrite app_nil_r|done].
    + rewrite Hrun. exists []. simpl. by rewrite app_nil_r.
    + destruct (os_MkdirAll_err env cacheDir).
      * rewrite Hrun. exists [EvMkdirAll cacheDir]. done.
      * apply (Hfv ms _ [EvMkdirAll cacheDir] Hrun); [done|].
        apply lookup_insert_eq.
Qed.

Lemma cache_directory_witness :
  Install Scenario.env "root" ["foo-1.0"]
    {| nodes := {[ "root/var/cache/pm" := File "stale" ]};
       handles := []; trace := [] |}
  = (Some (Errorf "%q is not a directory!" [ArgS "root/var/cache/pm"]),
     {| nodes := {[ "root/var/cache/pm" := File "stale" ]};
        handles := []; trace := [] |}).
Proof.
  apply (proj1 (cache_directory Scenario.env "root" ["foo-1.0"] _)
           (λ pkgs, Ok (map Scenario.meta pkgs)) [Scenario.meta "foo-1.0"] "stale").
  - reflexivity.
  - reflexivity.
  - vm_compute. reflexivity.
Defined.

(** X15. Both loops treat a batch in order and stop at the first error: the
    run over a batch followed by another is the run over the first, and,
    only when that returns nil, the run over the second from the state it
    left. Packages after a failing one are never fetched, respectively
    never examined. *)
Theorem batches_run_in_sequence env root cacheDir ms1 ms2 w :
  download env cacheDir (ms1 ++ ms2) w
  = match download env cacheDir ms1 w with
    | (Some err, w1) => (Some err, w1)
    | (None, w1) => download env cacheDir ms2 w1
    end
  ∧ Install_loop env root (ms1 ++ ms2) w
    = match Install_loop env root ms1 w with
      | (Some err, w1) => (Some err, w1)
      | (None, w1) => Install_loop env root ms2 w1
      end.
Proof. split; [apply download_app|apply Install_loop_app]. Qed.

(** X16. Verification is read-only: [getReadCloser],
    [verifyManifestIntegrity], [verifyPkgContents] and the verification loop
    of [Install] leave every path of the file system as it was, whatever
    they return. *)
Theorem verification_is_read_only env root tn fn m ms w :
  nodes (snd (getReadCloser env tn fn w)) = nodes w
  ∧ nodes (snd (verifyManifestIntegrity env root m w)) = nodes w
  ∧ nodes (snd (verifyPkgContents env root m w)) = nodes w
  ∧ nodes (snd (Install_loop env root ms w)) = nodes w.
Proof.
  split; [|split; [|split]].
  - destruct (nodes w !! tn) as [nd|] eqn:Hn.
    + by rewrite (getReadCloser_open env tn fn w nd Hn).
    + by rewrite (getReadCloser_absent env tn fn w Hn).
  - apply verifyManifestIntegrity_nodes.
  - apply verifyPkgContents_nodes.
  - apply Install_loop_nodes.
Qed.


